(** * seaborn.plotobjs: a model of the high-level plotting functions

    The module [seaborn/plotobjs.py] is glue code over matplotlib, numpy,
    scipy and moss.  What it owns is control flow: how the [ax] keyword is
    bound, which axis the drawing calls go to, in which order the calls are
    issued, and which exceptions its own checks raise.  The development
    below embeds that control flow as a state-and-exception monad over a
    small model of pyplot's global state; the numerical routines of the
    collaborating libraries are the fields of the class [Extern].

    Conventions.
    - Numbers are carried as exact rationals ([Q]).  No statement below
      depends on their arithmetic except the peak of a scaled density, and
      the two lines that compute it are given in binary64 as well.
    - An axis is a handle; the state of an axis is the sequence of method
      calls issued on it (and on the artists it owns).
    - A keyword-argument dictionary is a [gmap string pyval].
    - The code is Python 2 ([xrange] is a builtin, [range] returns a list). *)

From Stdlib Require Import Ascii QArith Qminmax Qabs Lqa.
From Corelib Require Import PrimFloat.
From stdpp Require Import base option list gmap strings pretty.

Open Scope string_scope.
Open Scope list_scope.
Set Warnings "-register-all".

(** ** Python values *)

Abbreviation vec := (list Q).

(** A two-dimensional array, given by its rows or (after [.T]) by its
    columns: numpy's transposition is a view on the same data. *)
Inductive array2 :=
| Rows (r : list vec)
| Cols (c : list vec).

Definition T (m : array2) : array2 :=
  match m with Rows r => Cols r | Cols c => Rows c end.

(** Number of columns: [ax.plot(x, Y)] draws one line per column of [Y]. *)
Definition ncols (m : array2) : nat :=
  match m with
  | Cols c => length c
  | Rows r => match r with [] => 0 | r0 :: _ => length r0 end
  end.

(** [n]-dimensional numeric array with its [shape]; [flat] is row-major. *)
Record ndarray := Arr { shape : list nat; flat : vec }.

Inductive pyval :=
| VNone
| VNaN
| VBool (b : bool)
| VNum (q : Q)
| VStr (s : string)
| VAxis (a : nat)
| VVec (v : vec)
| VMat (m : array2)
| VArr (a : ndarray)
| VMasked (m : list (list (option Q)))
| VStrs (l : list string)
| VDict (d : list (string * string))
| VList (l : list pyval).

Abbreviation kwargs_t := (gmap string pyval).

Inductive exn :=
| ValueError (msg : string)
| TypeError (msg : string)
| AttributeError (msg : string)
| IndexError (msg : string)
| KeyError (key : string).

Definition result (A : Type) : Type := exn + A.

(** ** Axes and pyplot's global state *)

(** One recorded method call.  [origin] is the function of this module
    whose body issued the call. *)
Record Cmd := mkCmd {
  origin : string;
  method : string;
  args : list pyval;
  kws : kwargs_t
}.

(** [axes]: every axis that exists, with the calls made on it so far.
    [gcf_111]: the axis at subplot position 111 of pyplot's current figure,
    if there is a current figure and it has one.
    [colorbars]: the colorbars [plt.colorbar] has added to a figure, each
    with the axis that holds its image. *)
Record World := mkWorld {
  axes : gmap nat (list Cmd);
  gcf_111 : option nat;
  colorbars : list nat
}.

Definition log (w : World) (a : nat) : list Cmd := default [] (axes w !! a).

Definition draw (a : nat) (c : Cmd) (w : World) : World :=
  mkWorld (<[a := log w a ++ [c]]> (axes w)) (gcf_111 w) (colorbars w).

(** ** The monad: state that survives an exception *)

Definition M (A : Type) : Type := World -> result A * World.

Definition ret {A} (x : A) : M A := fun w => (inr x, w).
Definition raise {A} (e : exn) : M A := fun w => (inl e, w).
Definition bind {A B} (m : M A) (f : A -> M B) : M B :=
  fun w => match m w with
           | (inr x, w') => f x w'
           | (inl e, w') => (inl e, w')
           end.
Definition lift {A} (r : result A) : M A := fun w => (r, w).

Notation "x <- m ;; k" := (bind m (fun x => k))
  (at level 20, m at level 99, k at level 200, only parsing).
Notation "' pat <- m ;; k" := (bind m (fun x => match x with pat => k end))
  (at level 20, pat pattern, m at level 99, k at level 200, only parsing).
Notation "m ;; k" := (bind m (fun _ => k))
  (at level 100, k at level 200, only parsing, right associativity).

(** [for x in l: body] *)
Fixpoint forM_ {A} (l : list A) (body : A -> M unit) : M unit :=
  match l with
  | [] => ret tt
  | x :: l' => body x ;; forM_ l' body
  end.

(** [if c: body] *)
Definition when (c : bool) (body : M unit) : M unit :=
  if c then body else ret tt.

(** [try: m  except KeyError: handler] *)
Definition try_except_KeyError {A} (m : M A) (handler : M A) : M A :=
  fun w => match m w with
           | (inl (KeyError _), w') => handler w'
           | r => r
           end.

(** ** Keyword arguments *)

(** [kwargs.pop(k, d)]: the default [d] is an argument of [pop] and has
    been evaluated by the time [pop] runs. *)
Definition pop (k : string) (d : pyval) (kwargs : kwargs_t) : pyval * kwargs_t :=
  (default d (kwargs !! k), delete k kwargs).

(** [**kwargs] of a [def]: the keywords of the call that match no named
    parameter. *)
Definition rest_kwargs (named : list string) (kw : kwargs_t) : kwargs_t :=
  foldr delete kw named.

(** [f(..., k1=v1, ..., **kwargs)]: a keyword given twice is a [TypeError]. *)
Fixpoint call_kwargs (explicit : list (string * pyval)) (kwargs : kwargs_t)
  : result kwargs_t :=
  match explicit with
  | [] => inr kwargs
  | (k, v) :: rest =>
      match call_kwargs rest kwargs with
      | inl e => inl e
      | inr kws' =>
          match kwargs !! k with
          | Some _ => inl (TypeError ("got multiple values for keyword argument '" +:+ k +:+ "'"))
          | None => inr (<[k := v]> kws')
          end
      end
  end.

(** ** Plotting-library primitives *)

(** [plt.subplot(111)]: the 111 axis of the current figure, created (with
    the figure, when there is none) if it does not exist yet. *)
Definition plt_subplot : M pyval :=
  fun w => match gcf_111 w with
           | Some a => (inr (VAxis a), w)
           | None =>
               let a := fresh (dom (axes w)) in
               (inr (VAxis a), mkWorld (<[a := []]> (axes w)) (Some a) (colorbars w))
           end.

(** Attribute lookup [ax.<method>]: only an axis has the plotting methods. *)
Definition as_axis (ax : pyval) : M nat :=
  match ax with
  | VAxis a => ret a
  | VNone => raise (AttributeError "'NoneType' object has no attribute")
  | _ => raise (AttributeError "object has no attribute")
  end.

Definition emit (a : nat) (c : Cmd) : M unit := fun w => (inr tt, draw a c w).

(** [ax.meth(a1, ..., k1=v1, ..., **kwargs)] *)
Definition ax_call (org : string) (ax : pyval) (meth : string) (args : list pyval)
    (explicit : list (string * pyval)) (kwargs : kwargs_t) : M unit :=
  a <- as_axis ax ;;
  kws <- lift (call_kwargs explicit kwargs) ;;
  emit a (mkCmd org meth args kws).

(** [ax.get_xlim()], [ax.get_ylim()]: read from the calls made so far. *)
Definition ax_read {A} (ax : pyval) (f : list Cmd -> A) : M A :=
  a <- as_axis ax ;;
  fun w => (inr (f (log w a)), w).

(** [plt.colorbar(mat_img)] adds a colorbar to the current figure. *)
Definition plt_colorbar (a : nat) : M unit :=
  fun w => (inr tt, mkWorld (axes w) (gcf_111 w) (colorbars w ++ [a])).

(** ** Numeric helpers (numpy operations the module calls directly) *)

Definition Qn (n : nat) : Q := inject_Z (Z.of_nat n).

Definition Qltb (a b : Q) : bool := negb (Qle_bool b a).

(** [a.max()] and [a.min()]: numpy raises [ValueError] on an empty array. *)
Definition amax (v : vec) : result Q :=
  match v with
  | [] => inl (ValueError "zero-size array to reduction operation maximum which has no identity")
  | x :: r => inr (foldr Qmax x r)
  end.

Definition amin (v : vec) : result Q :=
  match v with
  | [] => inl (ValueError "zero-size array to reduction operation minimum which has no identity")
  | x :: r => inr (foldr Qmin x r)
  end.

(** [np.linspace(a, b, n)] *)
Definition linspace (a b : Q) (n : nat) : vec :=
  match n with
  | 0 => []
  | 1 => [a]
  | _ => map (fun i => a + Qn i * ((b - a) / Qn (n - 1)))%Q (seq 0 n)
  end.

(** [np.arange(start, n + start)] *)
Definition arange (start : Q) (n : nat) : vec :=
  map (fun i => start + Qn i)%Q (seq 0 n).

(** [x[mask]] *)
Fixpoint select (x : vec) (mask : list bool) : vec :=
  match x, mask with
  | xi :: x', b :: mask' => if b then xi :: select x' mask' else select x' mask'
  | _, _ => []
  end.

(** [np.triu_indices(n, 1)], zipped: the pairs [(i, j)] with [i < j < n],
    row by row. *)
Definition triu_indices1 (n : nat) : list (nat * nat) :=
  flat_map (fun i => map (fun j => (i, j)) (seq (S i) (n - S i))) (seq 0 n).

(** ** The collaborating libraries *)

Class Extern := {
  (* moss *)
  moss_bootstrap : list vec -> nat -> bool -> (list vec -> vec) -> list vec;
  moss_percentiles_axis0 : list vec -> Q * Q -> vec * vec;
  moss_percentiles : vec -> list Q -> list Q;
  moss_sig_stars : Q -> string;
  moss_randomize_corrmat : list vec -> string -> bool -> nat -> nat -> Q;
  (* seaborn.utils *)
  ci_to_errsize : vec * vec -> vec -> array2;
  (* numpy *)
  np_mean : vec -> Q;
  np_median : vec -> Q;
  np_polyfit1 : vec -> vec -> Q * Q;
  np_polyval : Q * Q -> vec -> vec;
  np_corrcoef : vec -> vec -> Q;
  (* scipy *)
  stats_gaussian_kde : vec -> vec -> vec;
  (* matplotlib *)
  line_color : list Cmd -> kwargs_t -> pyval;
  get_xlim : list Cmd -> Q * Q;
  get_ylim : list Cmd -> Q * Q;
  boxplot_artists : string -> list vec -> nat;
  (* % formatting of numbers *)
  fmt_f3 : Q -> string;
  fmt_g3 : Q -> string
}.

(** The global namespace of the module, as [globals()] returns it. *)
Inductive func :=
| F_ci_to_errsize | F_tsplot
| F_plot_ci_band | F_plot_ci_bars | F_plot_boot_traces
| F_plot_obs_traces | F_plot_obs_points
| F_regplot | F_boxplot | F_kdeplot | F_rugplot | F_violin
| F_corrplot | F_symmatplot | F_kde_support.

Inductive global_obj :=
| GModule (name : string)
| GFunc (f : func)
| GOther.

Definition module_globals : list (string * global_obj) :=
  [ ("__builtins__", GModule "__builtin__"); ("__doc__", GOther);
    ("__file__", GOther); ("__name__", GOther); ("__package__", GOther);
    ("np", GModule "numpy"); ("stats", GModule "scipy.stats");
    ("plt", GModule "matplotlib.pyplot"); ("moss", GModule "moss");
    ("ci_to_errsize", GFunc F_ci_to_errsize);
    ("tsplot", GFunc F_tsplot);
    ("_plot_ci_band", GFunc F_plot_ci_band);
    ("_plot_ci_bars", GFunc F_plot_ci_bars);
    ("_plot_boot_traces", GFunc F_plot_boot_traces);
    ("_plot_obs_traces", GFunc F_plot_obs_traces);
    ("_plot_obs_points", GFunc F_plot_obs_points);
    ("regplot", GFunc F_regplot); ("boxplot", GFunc F_boxplot);
    ("kdeplot", GFunc F_kdeplot); ("rugplot", GFunc F_rugplot);
    ("violin", GFunc F_violin); ("corrplot", GFunc F_corrplot);
    ("symmatplot", GFunc F_symmatplot); ("_kde_support", GFunc F_kde_support) ].

Definition globals : gmap string global_obj := list_to_map module_globals.

(** [globals()[name]] *)
Definition globals_getitem (name : string) : M global_obj :=
  match globals !! name with
  | Some g => ret g
  | None => raise (KeyError name)
  end.

(** A [Line2D] returned by [ax.plot]: its axis and its colour. *)
Record line := mkLine { l_ax : nat; l_color : pyval }.

Section Plotobjs.
Context `{Extern}.

(** [line, = ax.plot(a1, ..., k1=v1, ..., **kwargs)] *)
Definition ax_plot_line (org : string) (ax : pyval) (args : list pyval)
    (explicit : list (string * pyval)) (kwargs : kwargs_t) : M line :=
  a <- as_axis ax ;;
  kws <- lift (call_kwargs explicit kwargs) ;;
  fun w => (inr (mkLine a (line_color (log w a) kws)),
            draw a (mkCmd org "plot" args kws) w).

(** [line.remove()] *)
Definition line_remove (org : string) (l : line) : M unit :=
  emit (l_ax l) (mkCmd org "line.remove" [] ∅).

(** *** Subroutines for tsplot errorbar plotting *)

Definition _plot_ci_band (ax : pyval) (x : vec) (data boot_data : list vec)
    (central_data : vec) (ci : vec * vec) (color : pyval) : M unit :=
  let '(low, high) := ci in
  ax_call "_plot_ci_band" ax "fill_between" [VVec x; VVec low; VVec high]
    [("color", color); ("alpha", VNum (2 # 10))] ∅.

Definition _plot_ci_bars (ax : pyval) (x : vec) (data boot_data : list vec)
    (central_data : vec) (ci : vec * vec) (color : pyval) : M unit :=
  let err := ci_to_errsize ci central_data in
  ax_call "_plot_ci_bars" ax "errorbar" [VVec x; VVec central_data]
    [("yerr", VMat err); ("color", color)] ∅.

Definition _plot_boot_traces (ax : pyval) (x : vec) (data boot_data : list vec)
    (central_data : vec) (ci : vec * vec) (color : pyval) : M unit :=
  ax_call "_plot_boot_traces" ax "plot" [VVec x; VMat (T (Rows (take 250 boot_data)))]
    [("color", color); ("alpha", VNum (25 # 100)); ("linewidth", VNum (25 # 100))] ∅.

Definition _plot_obs_traces (ax : pyval) (x : vec) (data boot_data : list vec)
    (central_data : vec) (ci : vec * vec) (color : pyval) : M unit :=
  ax_call "_plot_obs_traces" ax "plot" [VVec x; VMat (T (Rows data))]
    [("color", color); ("alpha", VNum (2 # 10))] ∅.

Definition _plot_obs_points (ax : pyval) (x : vec) (data boot_data : list vec)
    (central_data : vec) (ci : vec * vec) (color : pyval) : M unit :=
  ax_call "_plot_obs_points" ax "plot" [VVec x; VMat (T (Rows data)); VStr "o"]
    [("color", color); ("alpha", VNum (5 # 10)); ("markersize", VNum 3)] ∅.

(** [plot_func(ax, x, data, boot_data, central_data, ci, color)] for an
    object found in [globals()].  Only the five [_plot_*] subroutines take
    these seven arguments; [globals_plot_prefix] below shows that no other
    global is ever looked up by [tsplot]. *)
Definition call_plot_func (plot_func : global_obj) (ax : pyval) (x : vec)
    (data boot_data : list vec) (central_data : vec) (ci : vec * vec)
    (color : pyval) : M unit :=
  match plot_func with
  | GFunc F_plot_ci_band => _plot_ci_band ax x data boot_data central_data ci color
  | GFunc F_plot_ci_bars => _plot_ci_bars ax x data boot_data central_data ci color
  | GFunc F_plot_boot_traces => _plot_boot_traces ax x data boot_data central_data ci color
  | GFunc F_plot_obs_traces => _plot_obs_traces ax x data boot_data central_data ci color
  | GFunc F_plot_obs_points => _plot_obs_points ax x data boot_data central_data ci color
  | _ => raise (TypeError "object cannot be called with these arguments")
  end.

(** *** tsplot

    [def tsplot(x, data, err_style=["ci_band"], ci=(16, 84),
                central_func=np.mean, n_boot=10000, smooth=False,
                ax=None, **kwargs)]

    [ax] is a named parameter, so a keyword [ax] of the call is bound to it
    and never reaches [kwargs]. *)
Definition tsplot (x : vec) (data : list vec) (err_style : list string)
    (ci : Q * Q) (central_func : list vec -> vec) (n_boot : nat)
    (smooth : bool) (kw : kwargs_t) : M pyval :=
  let ax := default VNone (kw !! "ax") in
  let kwargs := rest_kwargs ["x"; "data"; "err_style"; "ci"; "central_func";
                             "n_boot"; "smooth"; "ax"] kw in
  new_ax <- plt_subplot ;;
  let '(ax, kwargs) := pop "ax" new_ax kwargs in
  let boot_data := moss_bootstrap data n_boot smooth central_func in
  let ci := moss_percentiles_axis0 boot_data ci in
  let central_data := central_func data in
  line <- ax_plot_line "tsplot" ax [VVec x; VVec central_data] [] kwargs ;;
  let color := l_color line in
  line_remove "tsplot" line ;;
  forM_ err_style (fun style =>
    plot_func <- try_except_KeyError
                   (globals_getitem ("_plot_" +:+ style))
                   (raise (ValueError (style +:+ " is not a valid err_style"))) ;;
    call_plot_func plot_func ax x data boot_data central_data ci color) ;;
  ax_call "tsplot" ax "plot" [VVec x; VVec central_data] [("color", color)] kwargs ;;
  ret ax.

(** *** regplot

    [def regplot(x, y, xlabel="", ylabel="", markerstyle="o",
                 ax=None, corr_func=stats.pearsonr, **kwargs)] *)
Definition regplot (x y : vec) (xlabel ylabel markerstyle : string)
    (corr_func : vec -> vec -> Q * Q) (kw : kwargs_t) : M pyval :=
  let ax := default VNone (kw !! "ax") in
  let kwargs := rest_kwargs ["x"; "y"; "xlabel"; "ylabel"; "markerstyle";
                             "ax"; "corr_func"] kw in
  ax <- match ax with VNone => plt_subplot | _ => ret ax end ;;
  let '(a, b) := np_polyfit1 x y in
  ax_call "regplot" ax "plot" [VVec x; VVec y; VStr markerstyle] [] ∅ ;;
  xlim <- ax_read ax get_xlim ;;
  let xlim := [xlim.1; xlim.2] in
  ax_call "regplot" ax "plot" [VVec xlim; VVec (np_polyval (a, b) xlim)] [] kwargs ;;
  let '(r, p) := corr_func x y in
  ax_call "regplot" ax "set_title"
    [VStr ("r = " +:+ fmt_f3 r +:+ "; p = " +:+ fmt_g3 p +:+ moss_sig_stars p)] [] ∅ ;;
  ax_call "regplot" ax "set_xlabel" [VStr xlabel] [] ∅ ;;
  ax_call "regplot" ax "set_ylabel" [VStr ylabel] [] ∅ ;;
  ret ax.

(** *** boxplot

    [def boxplot(vals, join_rm=False, names=None, color=None, **kwargs)] *)

(** [l[i]] on a Python list *)
Definition list_getitem {A} (l : list A) (i : nat) : result A :=
  match l !! i with
  | Some x => inr x
  | None => inl (IndexError "list index out of range")
  end.

(** [v[0]] on a Python value *)
Definition getitem0 (v : pyval) : result pyval :=
  match v with
  | VVec (q :: _) => inr (VNum q)
  | VStrs (s :: _) => inr (VStr s)
  | VList (x :: _) => inr x
  | VVec [] | VStrs [] | VList [] => inl (IndexError "list index out of range")
  | VStr (String c _) => inr (VStr (String c EmptyString))
  | VStr EmptyString => inl (IndexError "string index out of range")
  | _ => inl (TypeError "object has no attribute '__getitem__'")
  end.

(** [artist.meth(a1, ...)] for the [i]-th artist of [boxes[group]] *)
Definition artist_call (ax : pyval) (group : string) (i : nat) (meth : string)
    (args : list pyval) : M unit :=
  ax_call "boxplot" ax (group +:+ "." +:+ meth) (VNum (Qn i) :: args) [] ∅.

Definition gray : pyval := VStr "#555555".

Definition names_mismatch : exn :=
  ValueError "Length of names list must match nuber of bins".

Definition boxplot (vals : list vec) (join_rm : bool) (names : option (list string))
    (color : option pyval) (kw : kwargs_t) : M pyval :=
  let kwargs := rest_kwargs ["vals"; "join_rm"; "names"; "color"] kw in
  new_ax <- plt_subplot ;;
  let '(ax, kwargs) := pop "ax" new_ax kwargs in
  '(color, kwargs) <-
    match color with
    | None =>
        let '(positions, kwargs) := pop "positions" (VVec [1%Q]) kwargs in
        pos <- lift (getitem0 positions) ;;
        _ <- as_axis ax ;;
        vals0 <- lift (list_getitem vals 0) ;;
        line <- ax_plot_line "boxplot" ax [pos; VNum (np_mean vals0)] [] kwargs ;;
        let color := l_color line in
        line_remove "boxplot" line ;;
        ret (color, kwargs)
    | Some color => ret (color, kwargs)
    end ;;
  ax_call "boxplot" ax "boxplot" [VList (map VVec vals)]
    [("patch_artist", VBool true)] kwargs ;;
  forM_ (seq 0 (boxplot_artists "boxes" vals)) (fun i =>
    artist_call ax "boxes" i "set_color" [color] ;;
    artist_call ax "boxes" i "set_alpha" [VNum (7 # 10)] ;;
    artist_call ax "boxes" i "set_linewidth" [VNum (15 # 10)] ;;
    artist_call ax "boxes" i "set_edgecolor" [gray]) ;;
  forM_ (seq 0 (boxplot_artists "whiskers" vals)) (fun i =>
    artist_call ax "whiskers" i "set_color" [gray] ;;
    artist_call ax "whiskers" i "set_linewidth" [VNum 2] ;;
    artist_call ax "whiskers" i "set_alpha" [VNum (7 # 10)] ;;
    artist_call ax "whiskers" i "set_linestyle" [VStr "-"]) ;;
  forM_ (seq 0 (boxplot_artists "caps" vals)) (fun i =>
    artist_call ax "caps" i "set_color" [gray] ;;
    artist_call ax "caps" i "set_linewidth" [VNum (15 # 10)] ;;
    artist_call ax "caps" i "set_alpha" [VNum (7 # 10)]) ;;
  forM_ (seq 0 (boxplot_artists "medians" vals)) (fun i =>
    artist_call ax "medians" i "set_color" [gray] ;;
    artist_call ax "medians" i "set_linewidth" [VNum (15 # 10)]) ;;
  forM_ (seq 0 (boxplot_artists "fliers" vals)) (fun i =>
    artist_call ax "fliers" i "set_color" [gray] ;;
    artist_call ax "fliers" i "set_marker" [VStr "d"] ;;
    artist_call ax "fliers" i "set_alpha" [VNum (6 # 10)]) ;;
  when join_rm
    (ax_call "boxplot" ax "plot"
       [VVec (map Qn (seq 1 (length vals))); VList (map VVec vals)]
       [("color", color); ("alpha", VNum (2 / 3))] ∅) ;;
  match names with
  | Some names =>
      if negb (length vals =? length names)%nat
      then raise names_mismatch
      else ax_call "boxplot" ax "set_xticklabels" [VStrs names] [] ∅
  | None => ret tt
  end ;;
  ret ax.

(** *** rugplot

    [def rugplot(a, height=None, ax=None, **kwargs)] *)
Definition rugplot (a : ndarray) (height : option Q) (kw : kwargs_t) : M pyval :=
  let ax := default VNone (kw !! "ax") in
  let kwargs := rest_kwargs ["a"; "height"; "ax"] kw in
  ax <- match ax with VNone => plt_subplot | _ => ret ax end ;;
  '(ymin, ymax) <- ax_read ax get_ylim ;;
  '(ymin, height) <-
    match height with
    | None =>
        '(ymin, ymax) <- ax_read ax get_ylim ;;
        let yrange := (ymax - ymin)%Q in
        ret (ymin, (yrange * (5 # 100))%Q)
    | Some height => ret (ymin, height)
    end ;;
  ax_call "rugplot" ax "plot"
    [VList [VArr a; VArr a]; VVec [ymin; (ymin + height)%Q]] [] kwargs ;;
  ret ax.

(** *** _kde_support

    Only the extremes of [a] are used, so the function is given the
    values of [a] in one vector whatever the shape of [a]. *)
Definition _kde_support (a : vec) (kde : vec -> vec) (npts : nat) : result vec :=
  match amin a, amax a with
  | inr min, inr max =>
      let range := (max - min)%Q in
      let x := linspace (min - range) (max + range) (npts * 2) in
      let y := kde x in
      match amax y with
      | inr ymax =>
          let mask := map (fun yi => Qltb (ymax * (1 # 10000)) yi) y in
          inr (select x mask)
      | inl e => inl e
      end
  | inl e, _ => inl e
  | _, inl e => inl e
  end.

(** *** kdeplot

    [def kdeplot(a, npts=1000, hist=True, nbins=20, rug=False,
                 shade=False, **kwargs)] *)
Definition kdeplot (a : ndarray) (npts : nat) (hist : bool) (nbins : nat)
    (rug shade : bool) (kw : kwargs_t) : M pyval :=
  let kwargs := rest_kwargs ["a"; "npts"; "hist"; "nbins"; "rug"; "shade"] kw in
  new_ax <- plt_subplot ;;
  let '(ax, kwargs) := pop "ax" new_ax kwargs in
  let kde := stats_gaussian_kde (flat a) in
  x <- lift (_kde_support (flat a) kde npts) ;;
  let y := kde x in
  line <- ax_plot_line "kdeplot" ax [VVec x; VVec y] [] kwargs ;;
  let color := l_color line in
  line_remove "kdeplot" line ;;
  let '(_, kwargs) := pop "color" VNone kwargs in
  when hist
    (ax_call "kdeplot" ax "hist" [VArr a; VNum (Qn nbins)]
       [("normed", VBool true); ("color", color); ("alpha", VNum (4 # 10))] ∅) ;;
  ax_call "kdeplot" ax "plot" [VVec x; VVec y] [("color", color)] kwargs ;;
  when rug
    (ymax <- lift (amax y) ;;
     let rug_height := (ymax * (5 # 100))%Q in
     rugplot a (Some rug_height)
       (<["ax" := ax]> (<["color" := color]> (<["alpha" := VNum (7 # 10)]>
          (<["linewidth" := VNum 2]> ∅)))) ;;
     ax_read ax get_ylim ;;
     ret tt) ;;
  when shade
    (ax_call "kdeplot" ax "fill_between" [VVec x; VNum 0; VVec y]
       [("color", color); ("alpha", VNum (25 # 100))] ∅) ;;
  ret ax.

(** *** violin

    [def violin(vals, inner="box", position=None, widths=.3, join_rm=False,
                names=None, **kwargs)] *)

(** What [vals] can be: a numeric array, a one-dimensional array of
    objects (arrays when [elems_have_shape], Python sequences otherwise),
    a Python list of sequences, or a Python list of numbers. *)
Inductive vals_t :=
| NdArray (a : ndarray)
| ObjArray (elems_have_shape : bool) (elems : list vec)
| PySeqs (elems : list vec)
| PyNums (elems : vec).

Inductive position_t :=
| PosNone
| PosScalar (p : Q)
| PosSeq (l : vec).

(** [vals[:, i]] of a row-major array with [nr] rows and [nc] columns *)
Definition column (nr nc : nat) (flat : vec) (i : nat) : vec :=
  map (fun r => nth (r * nc + i) flat 0%Q) (seq 0 nr).

Definition too_many_dims : exn :=
  ValueError "Input x can have no more than 2 dimensions".

(** The Python list that lines 312-327 leave in [vals]: numbers (Python
    numbers or numpy scalars, which have a [shape] and no [__len__]),
    sequences, or the one array of objects wrapped by [[vals]]. *)
Inductive pylist :=
| LNums (l : vec)
| LSeqs (l : list vec)
| LObjArray (elems : list vec).

Definition empty_index : exn :=
  IndexError "index 0 is out of bounds for axis 0 with size 0".

(** Lines 312-327.  A sample of shape [(1, nc)] is carried as its [nc]
    values. *)
Definition violin_reshape (vals : vals_t) : result pylist :=
  match vals with
  | NdArray a =>
      match shape a with
      | [n] =>
          match n with
          | 0 => inl empty_index
          | _ => inr (LNums (flat a))
          end
      | [nr; nc] =>
          if (nr =? 1)%nat then inr (LSeqs [flat a])
          else if (nc =? 1)%nat then inr (LSeqs [flat a])
          else inr (LSeqs (map (column nr nc (flat a)) (seq 0 nc)))
      | _ => inl too_many_dims
      end
  | ObjArray has_shape elems =>
      match elems with
      | [] => inl empty_index
      | _ => if has_shape then inr (LSeqs elems) else inr (LObjArray elems)
      end
  | PySeqs l => inr (LSeqs l)
  | PyNums l => inr (LNums l)
  end.

(** Lines 328-331: [if not hasattr(vals[0], '__len__'): vals = [vals]],
    then [np.asarray(a, float)] on every element. *)
Definition violin_asarrays (vals : pylist) : result (list vec) :=
  match vals with
  | LNums [] | LSeqs [] => inl (IndexError "list index out of range")
  | LNums l => inr [l]
  | LSeqs l => inr l
  | LObjArray _ => inl (ValueError "setting an array element with a sequence.")
  end.

Definition violin_bins (vals : vals_t) : result (list vec) :=
  match violin_reshape vals with
  | inr l => violin_asarrays l
  | inl e => inl e
  end.

(** Lines 348-349: [scl = 1 / (dens.max() / (widths / 2)); dens *= scl] *)
Definition scale_density (dens : vec) (widths : Q) : result (Q * vec) :=
  match amax dens with
  | inr dmax =>
      let scl := (1 / (dmax / (widths / 2)))%Q in
      inr (scl, map (fun d => d * scl)%Q dens)
  | inl e => inl e
  end.

Definition vplot (ax : pyval) (args : list pyval) (explicit : list (string * pyval))
  : M unit := ax_call "violin" ax "plot" args explicit ∅.

(** One iteration of [for i, a in enumerate(vals)] *)
Definition violin_one (ax : pyval) (color : pyval) (inner : string)
    (position : vec) (widths : Q) (i : nat) (a : vec) : M unit :=
  x <- lift (list_getitem position i) ;;
  let kde := stats_gaussian_kde a in
  y <- lift (_kde_support a kde 1000) ;;
  let dens := kde y in
  '(scl, dens) <- lift (scale_density dens widths) ;;
  ax_call "violin" ax "fill_betweenx"
    [VVec y; VVec (map (fun d => x - d)%Q dens); VVec (map (fun d => x + d)%Q dens)]
    [("alpha", VNum (7 # 10)); ("color", color)] ∅ ;;
  (if String.eqb inner "box" then
     forM_ (moss_percentiles a [25%Q; 75%Q]) (fun quant =>
       let q_x := map (fun d => d * scl)%Q (kde [quant]) in
       vplot ax [VList [VVec (map (fun d => x - d)%Q q_x); VVec (map (fun d => x + d)%Q q_x)];
                 VVec [quant; quant]; gray]
         [("linestyle", VStr ":"); ("linewidth", VNum (15 # 10))]) ;;
     let med := np_median a in
     let m_x := map (fun d => d * scl)%Q (kde [med]) in
     vplot ax [VList [VVec (map (fun d => x - d)%Q m_x); VVec (map (fun d => x + d)%Q m_x)];
               VVec [med; med]; gray]
       [("linestyle", VStr "--"); ("linewidth", VNum (12 # 10))]
   else if String.eqb inner "stick" then
     let x_vals := map (fun d => d * scl)%Q (kde a) in
     vplot ax [VList [VVec (map (fun d => x - d)%Q x_vals); VVec (map (fun d => x + d)%Q x_vals)];
               VList [VVec a; VVec a]; gray]
       [("linewidth", VNum (7 # 10)); ("alpha", VNum (7 # 10))]
   else ret tt) ;;
  forM_ [(-1)%Q; 1%Q] (fun side =>
    vplot ax [VVec (map (fun d => side * d + x)%Q dens); VVec y; gray]
      [("linewidth", VNum 1)]).

(** [len(np.transpose(vals))] for a list of samples: samples of one common
    length form a two-dimensional array, ragged ones an array of objects. *)
Definition len_transpose (vals : list vec) : nat :=
  match vals with
  | [] => 0
  | v :: r => if forallb (fun u => (length u =? length v)%nat) r
              then length v else length vals
  end.

Definition violin (vals : vals_t) (inner : string) (position : position_t)
    (widths : Q) (join_rm : bool) (names : option (list string))
    (kw : kwargs_t) : M pyval :=
  let kwargs := rest_kwargs ["vals"; "inner"; "position"; "widths"; "join_rm";
                             "names"] kw in
  new_ax <- plt_subplot ;;
  let '(ax, kwargs) := pop "ax" new_ax kwargs in
  vals <- lift (violin_bins vals) ;;
  vals0 <- (as_axis ax ;; lift (list_getitem vals 0)) ;;
  line <- ax_plot_line "violin" ax [VNum (np_mean vals0); VNum (np_mean vals0)] [] kwargs ;;
  let color := l_color line in
  line_remove "violin" line ;;
  let position :=
    match position with
    | PosNone => arange 1 (length vals)
    | PosScalar p => arange p (length vals)
    | PosSeq l => l
    end in
  forM_ (zip (seq 0 (length vals)) vals) (fun '(i, a) =>
    violin_one ax color inner position widths i a) ;;
  when join_rm
    (ax_call "violin" ax "plot"
       [VVec (map Qn (seq 1 (len_transpose vals))); VMat (T (Rows vals))]
       [("color", color); ("alpha", VNum (2 / 3))] ∅) ;;
  ax_call "violin" ax "set_xticks" [VVec position] [] ∅ ;;
  match names with
  | Some names =>
      if negb (length vals =? length names)%nat
      then raise names_mismatch
      else ax_call "violin" ax "set_xticklabels" [VStrs names] [] ∅
  | None => ret tt
  end ;;
  first <- lift (list_getitem position 0) ;;
  last <- lift (list_getitem position (length position - 1)) ;;
  ax_call "violin" ax "set_xlim" [VNum (first - (1 # 2))%Q; VNum (last + (1 # 2))%Q] [] ∅ ;;
  ret ax.

(** *** symmatplot

    [def symmatplot(mat, p_mat=None, names=None, cmap="Spectral_r",
                    cmap_range=None, cbar=True, **kwargs)] *)

Inductive cmap_range_t :=
| CRNone
| CRStr (s : string)
| CRSeq (l : vec).

(** [mat[i, j]] *)
Definition mat_getitem (mat : list vec) (i j : nat) : result Q :=
  match mat !! i with
  | Some row =>
      match row !! j with
      | Some q => inr q
      | None => inl (IndexError "index out of bounds")
      end
  | None => inl (IndexError "index out of bounds")
  end.

(** [plotmat = mat.copy(); plotmat[np.triu_indices(nvars)] = np.nan] *)
Definition mask_triu (mat : list vec) : result (list (list (option Q))) :=
  let nvars := length mat in
  if forallb (fun row => (nvars <=? length row)%nat) mat
  then inr (imap (fun i row =>
              imap (fun j q => if (i <=? j)%nat && (j <? nvars)%nat then None else Some q) row)
              mat)
  else inl (IndexError "index out of bounds").

(** [np.nanmax(plotmat)], [np.nanmin(plotmat)]: NaN when nothing else is left *)
Definition present (m : list (list (option Q))) : vec := omap id (concat m).

Definition nan_scaled (r : result Q) : pyval :=
  match r with
  | inr q => VNum (q * (115 # 100))%Q
  | inl _ => VNaN
  end.

Definition not_understood : exn := ValueError "cmap_range argument not understood".

Definition newline : string := String "010"%char EmptyString.

Definition symmatplot (mat : list vec) (p_mat : option (list vec))
    (names : option (list string)) (cmap : pyval) (cmap_range : cmap_range_t)
    (cbar : bool) (kw : kwargs_t) : M pyval :=
  let kwargs := rest_kwargs ["mat"; "p_mat"; "names"; "cmap"; "cmap_range";
                             "cbar"] kw in
  new_ax <- plt_subplot ;;
  let '(ax, kwargs) := pop "ax" new_ax kwargs in
  let nvars := length mat in
  plotmat <- lift (mask_triu mat) ;;
  '(vmin, vmax) <-
    match cmap_range with
    | CRNone =>
        let vmax := nan_scaled (amax (present plotmat)) in
        let vmin := nan_scaled (amin (present plotmat)) in
        ret (vmin, vmax)
    | CRSeq [vmin; vmax] => ret (VNum vmin, VNum vmax)
    | CRStr (String c1 (String c2 EmptyString)) =>
        ret (VStr (String c1 EmptyString), VStr (String c2 EmptyString))
    | _ => raise not_understood
    end ;;
  a <- as_axis ax ;;
  ax_call "symmatplot" ax "matshow" [VMasked plotmat]
    [("cmap", cmap); ("vmin", vmin); ("vmax", vmax)] kwargs ;;
  when cbar (plt_colorbar a) ;;
  let p_mat :=
    match p_mat with
    | None => replicate nvars (replicate nvars 1%Q)
    | Some p_mat => p_mat
    end in
  forM_ (triu_indices1 nvars) (fun '(i, j) =>
    val <- lift (mat_getitem mat i j) ;;
    p <- lift (mat_getitem p_mat i j) ;;
    let stars := moss_sig_stars p in
    ax_call "symmatplot" ax "text"
      [VNum (Qn j); VNum (Qn i); VStr (newline +:+ fmt_g3 val +:+ newline +:+ stars)]
      [("fontdict", VDict [("ha", "center"); ("va", "center")])] ∅) ;;
  let names :=
    match names with
    | None => map (fun i : nat => "var" +:+ pretty i) (seq 0 nvars)
    | Some names => names
    end in
  forM_ (zip (seq 0 (length names)) names) (fun '(i, name) =>
    ax_call "symmatplot" ax "text" [VNum (Qn i); VNum (Qn i); VStr name]
      [("fontdict", VDict [("ha", "center"); ("va", "center"); ("weight", "bold")])] ∅) ;;
  let ticks := linspace (1 # 2) (Qn nvars - (1 # 2))%Q nvars in
  ax_call "symmatplot" ax "set_xticks" [VVec ticks] [] ∅ ;;
  ax_call "symmatplot" ax "set_yticks" [VVec ticks] [] ∅ ;;
  ax_call "symmatplot" ax "set_xticklabels" [VStrs []] [] ∅ ;;
  ax_call "symmatplot" ax "set_yticklabels" [VStrs []] [] ∅ ;;
  ax_call "symmatplot" ax "grid" [VBool true] [("linestyle", VStr "-")] ∅ ;;
  ret ax.

(** *** corrplot

    [def corrplot(data, names=None, sig_stars=True, sig_tail="both",
                  sig_corr=True, cmap="Spectral_r", cmap_range=None,
                  cbar=True, **kwargs)] *)

(** The [n] by [n] array with entries [f i j] *)
Definition tabulate2 (n : nat) (f : nat -> nat -> Q) : list vec :=
  map (fun i => map (f i) (seq 0 n)) (seq 0 n).

Definition corrplot (data : list vec) (names : option (list string))
    (sig_stars : bool) (sig_tail : string) (sig_corr : bool) (cmap : pyval)
    (cmap_range : cmap_range_t) (cbar : bool) (kw : kwargs_t) : M pyval :=
  let kwargs := rest_kwargs ["data"; "names"; "sig_stars"; "sig_tail"; "sig_corr";
                             "cmap"; "cmap_range"; "cbar"] kw in
  let nvars := length data in
  let corrmat := tabulate2 nvars (fun i j =>
                   np_corrcoef (nth i data []) (nth j data [])) in
  let p_mat :=
    if sig_stars
    then Some (tabulate2 nvars (moss_randomize_corrmat data sig_tail sig_corr))
    else None in
  cmap_range <-
    match cmap_range with
    | CRNone =>
        let triu := triu_indices1 nvars in
        m <- lift (amax (map (fun '(i, j) => Qabs (nth j (nth i corrmat []) 0%Q)) triu)) ;;
        let v := (m * (115 # 100))%Q in
        let vmax := if Qltb v 1 then v else 1%Q in
        let vmin := (- vmax)%Q in
        ret (CRSeq [vmin; vmax])
    | CRStr s => if String.eqb s "full" then ret (CRSeq [(-1)%Q; 1%Q]) else ret cmap_range
    | _ => ret cmap_range
    end ;;
  ax <- symmatplot corrmat p_mat names cmap cmap_range cbar kwargs ;;
  ret ax.

End Plotobjs.

(** ** A concrete instance of the collaborating libraries

    Small stand-ins, used to run the model on concrete calls: the bootstrap
    returns [n_boot] copies of the central trace, the density estimate is
    uniform, colours come from the [color] keyword or default to blue. *)

Definition Qsum (v : vec) : Q := foldr Qplus 0%Q v.

Definition sample_artists (group : string) (vals : list vec) : nat :=
  if String.eqb group "boxes" then length vals
  else if String.eqb group "medians" then length vals
  else 2 * length vals.

Instance sample_extern : Extern := {|
  moss_bootstrap := fun data n_boot smooth func => replicate n_boot (func data);
  moss_percentiles_axis0 := fun boot ci => (hd [] boot, hd [] boot);
  moss_percentiles := fun a qs => map (fun _ => hd 0%Q a) qs;
  moss_sig_stars := fun p => "";
  moss_randomize_corrmat := fun data tail corr i j => 1%Q;
  ci_to_errsize := fun ci central => Rows [central; central];
  np_mean := fun v => (Qsum v / Qn (length v))%Q;
  np_median := fun v => hd 0%Q v;
  np_polyfit1 := fun x y => (0%Q, hd 0%Q y);
  np_polyval := fun '(a, b) xs => map (fun x => a * x + b)%Q xs;
  np_corrcoef := fun u v => (1 # 2)%Q;
  stats_gaussian_kde := fun a xs => map (fun _ => 1%Q) xs;
  line_color := fun _ kws => default (VStr "b") (kws !! "color");
  get_xlim := fun _ => (0%Q, 1%Q);
  get_ylim := fun _ => (0%Q, 1%Q);
  boxplot_artists := sample_artists;
  fmt_f3 := fun _ => "0.000";
  fmt_g3 := fun _ => "0"
|}.

(** Column means, a stand-in for [np.mean(data, axis=0)]. *)
Definition sample_central (data : list vec) : vec := hd [] data.

(** pyplot with no figure open; with one figure holding axis [0] next to
    a second axis [1] that belongs to another figure; and with no current
    figure while an axis [1] made outside pyplot exists. *)
Definition no_figure : World := mkWorld ∅ None [].
Definition two_axes : World := mkWorld (<[0 := []]> (<[1 := []]> ∅)) (Some 0) [].
Definition detached_axis : World := mkWorld (<[1 := []]> ∅) None [].

(** Sample data: three time points, two observations; a symmetric
    two-by-two matrix. *)
Definition x3 : vec := [1%Q; 2%Q; 3%Q].
Definition d3 : list vec := [[1%Q; 2%Q; 3%Q]; [2%Q; 3%Q; 4%Q]].
Definition m2 : list vec := [[1%Q; (1 # 2)%Q]; [(1 # 2)%Q; 1%Q]].
Definition ci_default : Q * Q := (16%Q, 84%Q).

(** * Reasoning about runs

    Apart from [plt.subplot], whatever a plotting function does to the
    world is a sequence of calls on one axis and of colorbars added to the
    figure.  [emits a m R] says that every run of [m] changes the world by
    such a sequence [t] on axis [a], and that the outcome and [t] satisfy
    [R]. *)

Inductive effect :=
| EDraw (c : Cmd)
| EColorbar.

Definition apply_effect (a : nat) (w : World) (e : effect) : World :=
  match e with
  | EDraw c => draw a c w
  | EColorbar => mkWorld (axes w) (gcf_111 w) (colorbars w ++ [a])
  end.

Definition apply_trace (a : nat) (t : list effect) (w : World) : World :=
  foldl (apply_effect a) w t.

Definition emits {A} (a : nat) (m : M A) (R : result A -> list effect -> Prop) : Prop :=
  forall w, exists t, (m w).2 = apply_trace a t w /\ R (m w).1 t.

(** The calls of a trace, in order. *)
Definition cmds_of (t : list effect) : list Cmd :=
  omap (fun e => match e with EDraw c => Some c | EColorbar => None end) t.

(** The axis [plt.subplot(111)] returns, and the world it leaves. *)
Definition subplot_axis (w : World) : nat :=
  match gcf_111 w with
  | Some a => a
  | None => fresh (dom (axes w))
  end.

Definition subplot_world (w : World) : World := (plt_subplot w).2.

(** [ax] is not an axis: it has none of the plotting methods. *)
Definition not_axis (ax : pyval) : Prop := forall a, ax <> VAxis a.

(** ** Calls and what is observed of them *)

(** A call of one of the plotting functions with its typed arguments; the
    remaining keywords of the call are passed to [run] as a dictionary. *)
Inductive call :=
| Tsplot (x : vec) (data : list vec) (err_style : list string) (ci : Q * Q)
    (central_func : list vec -> vec) (n_boot : nat) (smooth : bool)
| Regplot (x y : vec) (xlabel ylabel markerstyle : string)
    (corr_func : vec -> vec -> Q * Q)
| Boxplot (vals : list vec) (join_rm : bool) (names : option (list string))
    (color : option pyval)
| Kdeplot (a : ndarray) (npts : nat) (hist : bool) (nbins : nat) (rug shade : bool)
| Rugplot (a : ndarray) (height : option Q)
| Violin (vals : vals_t) (inner : string) (position : position_t) (widths : Q)
    (join_rm : bool) (names : option (list string))
| Corrplot (data : list vec) (names : option (list string)) (sig_stars : bool)
    (sig_tail : string) (sig_corr : bool) (cmap : pyval)
    (cmap_range : cmap_range_t) (cbar : bool)
| Symmatplot (mat : list vec) (p_mat : option (list vec))
    (names : option (list string)) (cmap : pyval) (cmap_range : cmap_range_t)
    (cbar : bool).

Definition run `{Extern} (c : call) (kw : kwargs_t) : M pyval :=
  match c with
  | Tsplot x data err_style ci central_func n_boot smooth =>
      tsplot x data err_style ci central_func n_boot smooth kw
  | Regplot x y xlabel ylabel markerstyle corr_func =>
      regplot x y xlabel ylabel markerstyle corr_func kw
  | Boxplot vals join_rm names color => boxplot vals join_rm names color kw
  | Kdeplot a npts hist nbins rug shade => kdeplot a npts hist nbins rug shade kw
  | Rugplot a height => rugplot a height kw
  | Violin vals inner position widths join_rm names =>
      violin vals inner position widths join_rm names kw
  | Corrplot data names sig_stars sig_tail sig_corr cmap cmap_range cbar =>
      corrplot data names sig_stars sig_tail sig_corr cmap cmap_range cbar kw
  | Symmatplot mat p_mat names cmap cmap_range cbar =>
      symmatplot mat p_mat names cmap cmap_range cbar kw
  end.

(** The value the function uses as its axis: what the text of each
    function binds [ax] to before the first drawing call. *)
Definition target (c : call) (kw : kwargs_t) (w : World) : pyval :=
  match c with
  | Tsplot _ _ _ _ _ _ _ => VAxis (subplot_axis w)
  | Regplot _ _ _ _ _ _ | Rugplot _ _ =>
      match kw !! "ax" with
      | None | Some VNone => VAxis (subplot_axis w)
      | Some ax => ax
      end
  | _ => default (VAxis (subplot_axis w)) (kw !! "ax")
  end.

Definition axis_id (ax : pyval) : nat :=
  match ax with VAxis a => a | _ => 0 end.

(** Whether the call asks for a colorbar. *)
Definition wants_colorbar (c : call) : bool :=
  match c with
  | Corrplot _ _ _ _ _ _ _ cbar | Symmatplot _ _ _ _ _ cbar => cbar
  | _ => false
  end.

(** Every axis of [w] other than [ax] has in [w'] the calls it had in [w]. *)
Definition others_untouched (ax : pyval) (w w' : World) : Prop :=
  forall b, b ∈ dom (axes w) -> VAxis b <> ax -> axes w' !! b = axes w !! b.

(** Nothing but axis [a] differs between [w] and [w']. *)
Definition only_axis_changed (a : nat) (w w' : World) : Prop :=
  gcf_111 w' = gcf_111 w /\ colorbars w' = colorbars w /\
  forall b, b <> a -> axes w' !! b = axes w !! b.

(** The x tick labels of an axis: the argument of its last
    [set_xticklabels]. *)
Definition xticklabels (l : list Cmd) : option (list pyval) :=
  last (omap (fun c => if String.eqb (method c) "set_xticklabels"
                       then Some (args c) else None) l).

(** Number of calls of [meth] among [l]. *)
Definition count_method (meth : string) (l : list Cmd) : nat :=
  length (filter (fun c => method c = meth) l).

(** Lines a [plot] call draws: one per column of a two-dimensional [y]. *)
Definition n_lines (c : Cmd) : nat :=
  if String.eqb (method c) "plot" then
    match args c with
    | _ :: VMat m :: _ => ncols m
    | _ => 1
    end
  else 0.

(** Lines drawn by [_plot_boot_traces]. *)
Definition boot_traces (l : list Cmd) : nat :=
  foldr (fun c n => if String.eqb (origin c) "_plot_boot_traces"
                    then n_lines c + n else n) 0 l.

(** The names the docstring of [tsplot] lists for [err_style]. *)
Definition err_styles : list string :=
  ["ci_band"; "ci_bars"; "boot_traces"; "obs_traces"; "obs_points"].

Definition style_func (style : string) : option func :=
  if String.eqb style "ci_band" then Some F_plot_ci_band
  else if String.eqb style "ci_bars" then Some F_plot_ci_bars
  else if String.eqb style "boot_traces" then Some F_plot_boot_traces
  else if String.eqb style "obs_traces" then Some F_plot_obs_traces
  else if String.eqb style "obs_points" then Some F_plot_obs_points
  else None.

(** The density estimate is evaluated point by point and is positive, as
    a Gaussian kernel estimate is. *)
Class KdeLaws `{Extern} : Prop := {
  kde_length : forall a v, length (stats_gaussian_kde a v) = length v;
  kde_positive : forall a v, Forall (fun d => (0 < d)%Q) (stats_gaussian_kde a v)
}.

(** A trace without colorbars, and what every run establishes: a call
    that returns, returns the value it used as its axis, and that value is
    an axis; a call whose [ax] is not an axis draws nothing; a call that
    does not ask for a colorbar adds none. *)
Definition no_colorbar (t : list effect) : Prop :=
  Forall (fun e => e <> EColorbar) t.

Definition shape_post (ax : pyval) (cbar : bool) (r : result pyval)
    (t : list effect) : Prop :=
  (forall v, r = inr v -> v = ax /\ exists a, ax = VAxis a) /\
  (not_axis ax -> t = []) /\
  (cbar = false -> no_colorbar t).

(** The shape of every run: from [w], or from [w] after [plt.subplot], a
    trace on the axis the call uses. *)
Definition run_shape `{Extern} (c : call) (kw : kwargs_t) (w : World) : Prop :=
  exists w0,
    (w0 = w \/ w0 = subplot_world w) /\
    exists t,
      (run c kw w).2 = apply_trace (axis_id (target c kw w)) t w0 /\
      shape_post (target c kw w) (wants_colorbar c) (run c kw w).1 t.

(** The functions that take their axis with [kwargs.pop("ax", ...)]. *)
Definition pops_ax (c : call) : bool :=
  match c with
  | Tsplot _ _ _ _ _ _ _ | Regplot _ _ _ _ _ _ | Rugplot _ _ => false
  | _ => true
  end.

Definition is_tsplot (c : call) : bool :=
  match c with Tsplot _ _ _ _ _ _ _ => true | _ => false end.

(** How often [s] is listed in [l]. *)
Definition occurrences (s : string) (l : list string) : nat :=
  length (filter (fun x => x = s) l).

(** At most [250 * n] bootstrap traces in a trace. *)
Definition bound_post (n : nat) (t : list effect) : Prop :=
  boot_traces (cmds_of t) <= 250 * n.

(** The call [c] with its [names] argument replaced. *)
Definition with_names (c : call) (names : option (list string)) : call :=
  match c with
  | Boxplot vals join_rm _ color => Boxplot vals join_rm names color
  | Violin vals inner position widths join_rm _ =>
      Violin vals inner position widths join_rm names
  | _ => c
  end.

(** The data bins of a call of [boxplot] or [violin]: the elements of
    [vals] for [boxplot], the samples lines 312-331 extract for [violin]. *)
Definition bins_of (c : call) : option (result (list vec)) :=
  match c with
  | Boxplot vals _ _ _ => Some (inr vals)
  | Violin vals _ _ _ _ _ => Some (violin_bins vals)
  | _ => None
  end.

(** The axis method that draws the boxes, respectively the violins. *)
Definition drawing_method (c : call) : string :=
  match c with
  | Violin _ _ _ _ _ _ => "fill_betweenx"
  | _ => "boxplot"
  end.

(** How the outcome [x1] of a call with [names] relates to the outcome
    [x2] of the same call without: if the latter returns, the former
    returns the same axis with [names] as tick labels when the lengths
    agree, and otherwise raises with the axis as the latter leaves it, up
    to a final [set_xlim]. *)
Definition names_rel (n_bins : nat) (names : list string)
    (x1 x2 : result pyval * World) : Prop :=
  match x2.1 with
  | inr v =>
      let a := axis_id v in
      if (n_bins =? length names)%nat
      then x1.1 = inr v /\ xticklabels (log x1.2 a) = Some [VStrs names]
      else x1.1 = inl names_mismatch /\
           forall meth, meth <> "set_xlim" ->
             count_method meth (log x1.2 a) = count_method meth (log x2.2 a)
  | inl _ => True
  end.

(** A call that returns has called [meth] at least once. *)
Definition drawn_post (meth : string) (r : result pyval) (t : list effect) : Prop :=
  forall v, r = inr v -> 1 <= count_method meth (cmds_of t).

(** ** The density scaling in binary64

    Lines 348-349 again, with the arithmetic numpy performs on [float64]
    arrays: every operation rounds to the nearest binary64 value. *)





(** ** Well-formed calls

    What the module itself needs of its arguments in order not to raise:
    data that is not empty and rectangular where it is indexed, documented
    style names, positions for every violin, names and a colour range of
    the right length. *)

(** At least [n] rows of at least [n] entries. *)
Definition wide (n : nat) (m : list vec) : Prop :=
  n <= length m /\ Forall (fun row => n <= length row) m.







(** The call returns axis [a]. *)
Definition returns_post (a : nat) (r : result pyval) (t : list effect) : Prop :=
  r = inr (VAxis a).

(** ** What a run adds to its axis *)

(** The calls a run from [w] to [w'] has added to axis [a]. *)
Definition new_cmds (w w' : World) (a : nat) : list Cmd :=
  drop (length (log w a)) (log w' a).

(** The calls of [meth] among [l], in order. *)
Definition calls_of (meth : string) (l : list Cmd) : list Cmd :=
  filter (fun c => method c = meth) l.

(** The functions whose first statement is
    [ax = kwargs.pop("ax", plt.subplot(111))]. *)
Definition subplot_first (c : call) : bool :=
  match c with
  | Tsplot _ _ _ _ _ _ _ | Boxplot _ _ _ _ | Kdeplot _ _ _ _ _ _
  | Violin _ _ _ _ _ _ | Symmatplot _ _ _ _ _ _ => true
  | _ => false
  end.

(** The calls of a [tsplot] that returns: the line drawn to learn its
    colour and its removal, one call for each of the [n] error styles, all
    in that colour, and the central trace. *)
Definition tsplot_post (x central : vec) (n : nat) (r : result pyval)
    (t : list effect) : Prop :=
  forall v, r = inr v ->
  exists kwargs c styles,
    cmds_of t =
      mkCmd "tsplot" "plot" [VVec x; VVec central] kwargs ::
      mkCmd "tsplot" "line.remove" [] ∅ :: styles ++
      [mkCmd "tsplot" "plot" [VVec x; VVec central] (<["color" := c]> kwargs)] /\
    kwargs !! "color" = None /\
    length styles = n /\
    Forall (fun cmd => kws cmd !! "color" = Some c) styles.



(** The one [ax.boxplot] call of a [boxplot] that returns, and what it is
    given as [positions]. *)
Definition boxplot_post (vals : list vec) (positions : option pyval)
    (r : result pyval) (t : list effect) : Prop :=
  forall v, r = inr v ->
  exists kwargs,
    calls_of "boxplot" (cmds_of t) =
      [mkCmd "boxplot" "boxplot" [VList (map VVec vals)] kwargs] /\
    kwargs !! "positions" = positions /\
    kwargs !! "patch_artist" = Some (VBool true).




(** Lines 339-342: where the violins go. *)
Definition violin_positions (position : position_t) (n : nat) : vec :=
  match position with
  | PosNone => arange 1 n
  | PosScalar p => arange p n
  | PosSeq l => l
  end.

(** A [violin] that returns has drawn [n] violins. *)
Definition violins_post (n : nat) (r : result pyval) (t : list effect) : Prop :=
  forall v, r = inr v -> count_method "fill_betweenx" (cmds_of t) = n.

(** A [violin] that returns has set the ticks to the positions and, last
    of all, the limits to half a unit beyond the first and the last. *)
Definition ticks_post (pos : vec) (r : result pyval) (t : list effect) : Prop :=
  forall v, r = inr v ->
  exists first lst,
    pos !! 0 = Some first /\ last pos = Some lst /\
    mkCmd "violin" "set_xticks" [VVec pos] ∅ ∈ cmds_of t /\
    last (cmds_of t) =
      Some (mkCmd "violin" "set_xlim"
              [VNum (first - (1 # 2))%Q; VNum (lst + (1 # 2))%Q] ∅).

(** The line plot of [join_rm] in [violin], for samples of length [m]. *)
Definition join_post (bins : list vec) (m : nat) (r : result pyval)
    (t : list effect) : Prop :=
  forall v, r = inr v ->
  exists kwargs,
    mkCmd "violin" "plot" [VVec (map Qn (seq 1 m)); VMat (Cols bins)] kwargs
      ∈ cmds_of t.

(** A [cmap_range] that is neither [None] nor of length two. *)
Definition bad_cmap_range (cmap_range : cmap_range_t) : Prop :=
  match cmap_range with
  | CRNone => False
  | CRStr s => String.length s <> 2
  | CRSeq l => length l <> 2
  end.

(** A [symmatplot] that returns has written [n] texts. *)
Definition texts_post (n : nat) (r : result pyval) (t : list effect) : Prop :=
  forall v, r = inr v -> count_method "text" (cmds_of t) = n.




Section Runs.

Lemma apply_trace_app a t1 t2 w :
  apply_trace a (t1 ++ t2) w = apply_trace a t2 (apply_trace a t1 w).
Proof. unfold apply_trace. apply foldl_app. Qed.

Lemma plt_subplot_run w :
  plt_subplot w = (inr (VAxis (subplot_axis w)), subplot_world w).
Proof.
  unfold subplot_world, subplot_axis, plt_subplot.
  destruct (gcf_111 w); reflexivity.
Qed.

Lemma bind_subplot {B} (f : pyval -> M B) w :
  bind plt_subplot f w = f (VAxis (subplot_axis w)) (subplot_world w).
Proof. unfold bind. rewrite plt_subplot_run. reflexivity. Qed.

Lemma axis_or_not (ax : pyval) : (exists a, ax = VAxis a) \/ not_axis ax.
Proof.
  destruct ax; try (right; intros a' Ha; discriminate Ha).
  left. eexists. reflexivity.
Qed.

Lemma as_axis_not_axis ax :
  not_axis ax -> exists e, as_axis ax = raise (AttributeError e).
Proof.
  intros Hn. destruct ax; try (eexists; reflexivity).
  exfalso. eapply Hn. reflexivity.
Qed.

Context {A B : Type} (a : nat).

Lemma emits_conseq (m : M A) (R1 R2 : result A -> list effect -> Prop) :
  emits a m R1 -> (forall r t, R1 r t -> R2 r t) -> emits a m R2.
Proof.
  intros Hm HR w. destruct (Hm w) as (t & Hw & Ht).
  exists t. split; [exact Hw | apply HR, Ht].
Qed.

Lemma emits_ret (x : A) R : R (inr x) [] -> emits a (ret x) R.
Proof. intros HR w. exists []. split; [reflexivity | exact HR]. Qed.

Lemma emits_raise (e : exn) (R : result A -> _) : R (inl e) [] -> emits a (raise e) R.
Proof. intros HR w. exists []. split; [reflexivity | exact HR]. Qed.

Lemma emits_lift (r : result A) R : R r [] -> emits a (lift r) R.
Proof. intros HR w. exists []. split; [reflexivity | exact HR]. Qed.

Lemma emits_bind (m : M A) (f : A -> M B) (R : result B -> list effect -> Prop) :
  emits a m (fun r t1 =>
    match r with
    | inr x => emits a (f x) (fun r' t2 => R r' (t1 ++ t2))
    | inl e => R (inl e) t1
    end) ->
  emits a (bind m f) R.
Proof.
  intros Hm w. destruct (Hm w) as (t1 & Hw & Ht). unfold bind.
  destruct (m w) as [[e | x] w1]; simpl in *.
  - exists t1. split; assumption.
  - destruct (Ht w1) as (t2 & Hw2 & Ht2).
    exists (t1 ++ t2). rewrite apply_trace_app, <- Hw. split; assumption.
Qed.

End Runs.

Section Rules.
Context `{Extern} {A : Type} (a : nat).

Lemma emits_as_axis (R : result nat -> list effect -> Prop) :
  R (inr a) [] -> emits a (as_axis (VAxis a)) R.
Proof. apply (emits_ret a). Qed.

Lemma emits_as_axis_not ax (R : result nat -> list effect -> Prop) :
  not_axis ax -> (forall e, R (inl (AttributeError e)) []) -> emits a (as_axis ax) R.
Proof.
  intros Hn HR. destruct (as_axis_not_axis ax Hn) as [e ->].
  apply emits_raise, HR.
Qed.

Lemma emits_emit c (R : result unit -> list effect -> Prop) :
  R (inr tt) [EDraw c] -> emits a (emit a c) R.
Proof. intros HR w. exists [EDraw c]. split; [reflexivity | exact HR]. Qed.

Lemma emits_ax_call org meth args explicit kwargs
    (R : result unit -> list effect -> Prop) :
  match call_kwargs explicit kwargs with
  | inr kws => R (inr tt) [EDraw (mkCmd org meth args kws)]
  | inl e => R (inl e) []
  end ->
  emits a (ax_call org (VAxis a) meth args explicit kwargs) R.
Proof.
  intros HR. unfold ax_call. apply emits_bind, emits_as_axis, emits_bind.
  destruct (call_kwargs explicit kwargs) as [e | kws]; apply emits_lift.
  - exact HR.
  - apply emits_emit. exact HR.
Qed.

Lemma emits_ax_call_not org ax meth args explicit kwargs
    (R : result unit -> list effect -> Prop) :
  not_axis ax -> (forall e, R (inl (AttributeError e)) []) ->
  emits a (ax_call org ax meth args explicit kwargs) R.
Proof.
  intros Hn HR. unfold ax_call. apply emits_bind, emits_as_axis_not; assumption.
Qed.

Lemma emits_ax_read (f : list Cmd -> A) (R : result A -> list effect -> Prop) :
  (forall l, R (inr (f l)) []) -> emits a (ax_read (VAxis a) f) R.
Proof.
  intros HR. unfold ax_read. apply emits_bind, emits_as_axis.
  intros w. exists []. split; [reflexivity | apply HR].
Qed.

Lemma emits_ax_read_not ax (f : list Cmd -> A) (R : result A -> list effect -> Prop) :
  not_axis ax -> (forall e, R (inl (AttributeError e)) []) ->
  emits a (ax_read ax f) R.
Proof.
  intros Hn HR. unfold ax_read. apply emits_bind, emits_as_axis_not; assumption.
Qed.

Lemma emits_plot_line org args explicit kwargs
    (R : result line -> list effect -> Prop) :
  (forall l, match call_kwargs explicit kwargs with
             | inr kws => R (inr (mkLine a (line_color l kws)))
                            [EDraw (mkCmd org "plot" args kws)]
             | inl e => R (inl e) []
             end) ->
  emits a (ax_plot_line org (VAxis a) args explicit kwargs) R.
Proof.
  intros HR. unfold ax_plot_line. apply emits_bind, emits_as_axis, emits_bind.
  pose proof HR as HR'.
  destruct (call_kwargs explicit kwargs) as [e | kws]; apply emits_lift.
  - apply (HR []).
  - intros w. eexists [EDraw _]. split; [reflexivity | apply HR].
Qed.

Lemma emits_plot_line_not org ax args explicit kwargs
    (R : result line -> list effect -> Prop) :
  not_axis ax -> (forall e, R (inl (AttributeError e)) []) ->
  emits a (ax_plot_line org ax args explicit kwargs) R.
Proof.
  intros Hn HR. unfold ax_plot_line. apply emits_bind, emits_as_axis_not; assumption.
Qed.

Lemma emits_line_remove org l (R : result unit -> list effect -> Prop) :
  l_ax l = a ->
  R (inr tt) [EDraw (mkCmd org "line.remove" [] ∅)] ->
  emits a (line_remove org l) R.
Proof. intros Ha HR. unfold line_remove. rewrite Ha. apply emits_emit, HR. Qed.

Lemma emits_colorbar (R : result unit -> list effect -> Prop) :
  R (inr tt) [EColorbar] -> emits a (plt_colorbar a) R.
Proof. intros HR w. exists [EColorbar]. split; [reflexivity | exact HR]. Qed.

Lemma emits_when c body (R : result unit -> list effect -> Prop) :
  (c = true -> emits a body R) -> (c = false -> R (inr tt) []) ->
  emits a (when c body) R.
Proof.
  intros Ht Hf. destruct c; simpl.
  - apply Ht. reflexivity.
  - apply emits_ret, Hf. reflexivity.
Qed.

(** A loop, with an invariant [P] on the trace emitted so far. *)
Lemma emits_forM_ {X} (P : list effect -> Prop) (l : list X) (body : X -> M unit)
    (R : result unit -> list effect -> Prop) :
  P [] ->
  (forall x t1, x ∈ l -> P t1 ->
     emits a (body x) (fun r t2 =>
       match r with
       | inr _ => P (t1 ++ t2)
       | inl e => R (inl e) (t1 ++ t2)
       end)) ->
  (forall t, P t -> R (inr tt) t) ->
  emits a (forM_ l body) R.
Proof.
  intros HP Hbody HR.
  assert (Hgen : forall t0, P t0 ->
            emits a (forM_ l body) (fun r t => R r (t0 ++ t))).
  { induction l as [| x l IH]; intros t0 Ht0; simpl.
    - apply emits_ret. rewrite app_nil_r. apply HR, Ht0.
    - apply emits_bind.
      eapply emits_conseq; [apply (Hbody x t0); [left | exact Ht0] |].
      intros [e | []] t1 Ht1; simpl in *.
      + exact Ht1.
      + eapply emits_conseq.
        * apply IH; [| exact Ht1].
          intros y t' Hy. apply Hbody. right. exact Hy.
        * intros r t. rewrite app_assoc. auto. }
  eapply emits_conseq; [apply (Hgen [] HP) | auto].
Qed.

(** A loop, with an invariant on the items done and the trace so far. *)
Lemma emits_forM_prefix {X} (P : list X -> list effect -> Prop) (l : list X)
    (body : X -> M unit) (R : result unit -> list effect -> Prop) :
  P [] [] ->
  (forall done x rest t1, l = done ++ x :: rest -> P done t1 ->
     emits a (body x) (fun r t2 =>
       match r with
       | inr _ => P (done ++ [x]) (t1 ++ t2)
       | inl e => R (inl e) (t1 ++ t2)
       end)) ->
  (forall t, P l t -> R (inr tt) t) ->
  emits a (forM_ l body) R.
Proof.
  intros HP Hbody HR.
  assert (Hgen : forall todo done t0, l = done ++ todo -> P done t0 ->
            emits a (forM_ todo body) (fun r t => R r (t0 ++ t))).
  { induction todo as [| x todo IH]; intros done t0 Hl Ht0; simpl.
    - apply emits_ret. rewrite app_nil_r in *. subst l. apply HR, Ht0.
    - apply emits_bind.
      eapply emits_conseq; [apply (Hbody done x todo t0 Hl Ht0) |].
      intros [e | []] t1 Ht1; simpl in *.
      + exact Ht1.
      + eapply emits_conseq.
        * apply (IH (done ++ [x])); [| exact Ht1].
          rewrite <- app_assoc. exact Hl.
        * intros r t. rewrite app_assoc. auto. }
  eapply emits_conseq; [apply (Hgen l [] [] eq_refl HP) | auto].
Qed.

End Rules.

(** ** Worlds after [plt.subplot] and after a trace *)

Section Worlds.

Lemma log_subplot_world w b : log (subplot_world w) b = log w b.
Proof.
  unfold subplot_world, plt_subplot. destruct (gcf_111 w); [reflexivity |].
  unfold log. simpl. destruct (decide (fresh (dom (axes w)) = b)) as [<- | Hne].
  - rewrite lookup_insert_eq.
    pose proof (is_fresh (dom (axes w))) as Hf.
    apply not_elem_of_dom in Hf. rewrite Hf. reflexivity.
  - rewrite lookup_insert_ne by exact Hne. reflexivity.
Qed.

Lemma axes_subplot_world w b :
  b ∈ dom (axes w) -> axes (subplot_world w) !! b = axes w !! b.
Proof.
  intros Hb. unfold subplot_world, plt_subplot.
  destruct (gcf_111 w); [reflexivity |]. simpl.
  apply lookup_insert_ne. intros <-. exact (is_fresh (dom (axes w)) Hb).
Qed.

Lemma colorbars_subplot_world w : colorbars (subplot_world w) = colorbars w.
Proof. unfold subplot_world, plt_subplot. destruct (gcf_111 w); reflexivity. Qed.

Lemma axes_apply_trace_ne a t w b :
  b <> a -> axes (apply_trace a t w) !! b = axes w !! b.
Proof.
  intros Hne. revert w. induction t as [| e t IH]; intros w; [reflexivity |].
  simpl. rewrite IH. destruct e; simpl; [| reflexivity].
  apply lookup_insert_ne. congruence.
Qed.

Lemma log_draw a c w : log (draw a c w) a = log w a ++ [c].
Proof. unfold log at 1. simpl. rewrite lookup_insert_eq. reflexivity. Qed.

Lemma log_apply_trace a t w :
  log (apply_trace a t w) a = log w a ++ cmds_of t.
Proof.
  revert w. induction t as [| e t IH]; intros w; simpl.
  - rewrite app_nil_r. reflexivity.
  - rewrite IH. destruct e; simpl.
    + rewrite log_draw, <- app_assoc. reflexivity.
    + reflexivity.
Qed.

Lemma colorbars_apply_trace a t w :
  no_colorbar t -> colorbars (apply_trace a t w) = colorbars w.
Proof.
  revert w. induction t as [| e t IH]; intros w Ht; [reflexivity |].
  apply Forall_cons in Ht as [He Ht]. simpl. rewrite IH by exact Ht.
  destruct e; [reflexivity | congruence].
Qed.

Lemma gcf_111_apply_trace a t w : gcf_111 (apply_trace a t w) = gcf_111 w.
Proof.
  revert w. induction t as [| e t IH]; intros w; [reflexivity |].
  simpl. rewrite IH. destruct e; reflexivity.
Qed.

End Worlds.

(** ** Keyword dictionaries and the module's globals *)

Section Keywords.

Lemma lookup_rest_kwargs named (kw : kwargs_t) k :
  k ∉ named -> rest_kwargs named kw !! k = kw !! k.
Proof.
  induction named as [| n named IH]; intros Hk; simpl; [reflexivity |].
  apply not_elem_of_cons in Hk as [Hne Hk].
  rewrite lookup_delete_ne by congruence. apply IH, Hk.
Qed.

Lemma lookup_rest_kwargs_named named (kw : kwargs_t) k :
  k ∈ named -> rest_kwargs named kw !! k = None.
Proof.
  induction named as [| n named IH]; intros Hk; simpl.
  { apply elem_of_nil in Hk. destruct Hk. }
  destruct (decide (n = k)) as [-> | Hne].
  - apply lookup_delete_eq.
  - rewrite lookup_delete_ne by exact Hne. apply IH.
    apply elem_of_cons in Hk as [-> | Hk]; [congruence | exact Hk].
Qed.


(** The only globals whose name starts with [_plot_] are the five
    subroutines, so [globals()["_plot_%s" % style]] finds a subroutine for
    the five documented names and raises [KeyError] for anything else. *)
Lemma globals_plot_prefix s :
  globals !! ("_plot_" +:+ s) = GFunc <$> style_func s.
Proof.
  unfold globals, module_globals, style_func.
  cbn [list_to_map foldr uncurry fst snd]. cbv [String.append].
  repeat (rewrite lookup_insert; case_decide;
          [ simplify_eq/=; reflexivity | ]).
  rewrite lookup_empty.
  repeat match goal with
         | |- context [String.eqb s ?k] =>
             destruct (String.eqb_spec s k) as [-> | ?]; [exfalso; eauto |]
         end.
  reflexivity.
Qed.

Lemma style_func_valid s : is_Some (style_func s) <-> s ∈ err_styles.
Proof.
  unfold style_func, err_styles. split.
  - intros [f Hf].
    repeat match type of Hf with
           | context [String.eqb s ?k] =>
               destruct (String.eqb_spec s k) as [-> | ?]; [set_solver |]
           end.
    discriminate Hf.
  - intros Hs.
    repeat (apply elem_of_cons in Hs as [-> | Hs]; [eexists; reflexivity |]).
    set_solver.
Qed.

End Keywords.

Section Dispatch.
Context `{Extern}.

Lemma emits_after_subplot {A} (f : pyval -> M A) a R w :
  emits a (f (VAxis (subplot_axis w))) R ->
  exists t, (bind plt_subplot f w).2 = apply_trace a t (subplot_world w) /\
            R (bind plt_subplot f w).1 t.
Proof. intros Hf. rewrite bind_subplot. apply Hf. Qed.

Lemma emits_dispatch a s handler (R : result global_obj -> list effect -> Prop) :
  match style_func s with
  | Some f => R (inr (GFunc f)) []
  | None => emits a handler R
  end ->
  emits a (try_except_KeyError (globals_getitem ("_plot_" +:+ s)) handler) R.
Proof.
  intros HR w. unfold try_except_KeyError, globals_getitem.
  rewrite globals_plot_prefix. destruct (style_func s) as [f |]; simpl.
  - exists []. split; [reflexivity | exact HR].
  - apply HR.
Qed.

End Dispatch.

(** One step of a run: the rule for the construct at the head of the
    program; [loop] is what to do at a [for] loop. *)
Ltac emits_step_with loop :=
  lazymatch goal with
  | |- emits _ (bind _ _) _ => apply emits_bind
  | |- emits _ (ret _) _ => apply emits_ret
  | |- emits _ (raise _) _ => apply emits_raise
  | |- emits _ (lift _) _ => apply emits_lift
  | |- emits _ (as_axis (VAxis _)) _ => apply emits_as_axis
  | |- emits _ (as_axis _) _ => apply emits_as_axis_not; [assumption | intros ?]
  | |- emits _ (ax_call _ (VAxis _) _ _ _ _) _ => apply emits_ax_call
  | |- emits _ (ax_call _ _ _ _ _ _) _ =>
      apply emits_ax_call_not; [assumption | intros ?]
  | |- emits _ (artist_call (VAxis _) _ _ _ _) _ => apply emits_ax_call
  | |- emits _ (artist_call _ _ _ _ _) _ =>
      apply emits_ax_call_not; [assumption | intros ?]
  | |- emits _ (vplot (VAxis _) _ _) _ => apply emits_ax_call
  | |- emits _ (ax_read (VAxis _) _) _ => apply emits_ax_read; intros ?
  | |- emits _ (ax_read _ _) _ => apply emits_ax_read_not; [assumption | intros ?]
  | |- emits _ (ax_plot_line _ (VAxis _) _ _ _) _ => apply emits_plot_line; intros ?
  | |- emits _ (ax_plot_line _ _ _ _ _) _ =>
      apply emits_plot_line_not; [assumption | intros ?]
  | |- emits _ (line_remove _ _) _ => apply emits_line_remove; [reflexivity |]
  | |- emits _ (plt_colorbar _) _ => apply emits_colorbar
  | |- emits _ (when _ _) _ => apply emits_when; intros ?
  | |- emits _ (try_except_KeyError _ _) _ => apply emits_dispatch
  | |- emits _ (call_plot_func _ _ _ _ _ _ _ _) _ =>
      unfold call_plot_func, _plot_ci_band, _plot_ci_bars, _plot_boot_traces,
        _plot_obs_traces, _plot_obs_points
  | |- emits _ (violin_one _ _ _ _ _ _ _) _ => unfold violin_one
  | |- emits _ (rugplot _ _ _) _ =>
      unfold rugplot; rewrite ?lookup_insert_eq; cbn [from_option id]
  | |- emits _ (forM_ _ _) _ => loop
  | |- emits _ (match ?x with _ => _ end) _ => destruct x eqn:?
  | |- match ?x with _ => _ end => destruct x eqn:?
  end; cbv beta iota; cbn [call_kwargs]; try rewrite !lookup_empty; cbv beta iota.

(** The same, with an invariant [P] on the trace of every loop. *)
Ltac emits_step P :=
  emits_step_with
    ltac:(apply (emits_forM_ _ P); [ | intros ? ? ? ? | intros ? ?]).

Ltac shape_post_tac :=
  unfold shape_post, no_colorbar in *; cbn [app];
  repeat split; intros;
  repeat match goal with
         | H : not_axis (VAxis ?a) |- _ => exfalso; exact (H a eq_refl)
         | H : inl _ = inr _ |- _ => discriminate H
         | H : inr _ = inr _ |- _ => injection H as <-
         | H : ?b = true, H' : ?b = false |- _ => congruence
         | |- Forall _ (_ ++ _) => apply Forall_app; split
         | |- Forall _ (_ :: _) => constructor
         | |- Forall _ [] => constructor
         | |- EDraw _ <> EColorbar => discriminate
         | |- exists a, VAxis _ = VAxis a => eexists; reflexivity
         end; eauto.

Ltac shape_go ax :=
  destruct (axis_or_not ax) as [[? ->] | ?]; simpl axis_id;
  repeat emits_step no_colorbar; shape_post_tac.

Ltac not_named :=
  repeat (apply not_elem_of_cons; split; [discriminate |]); apply not_elem_of_nil.

Ltac is_named :=
  repeat first [ apply list_elem_of_here | apply list_elem_of_further ].

(** ** The shape of the runs of each function *)

Section Shapes.
Context `{Extern}.

Ltac after_subplot :=
  eexists; split; [right; reflexivity |];
  apply emits_after_subplot.

Lemma tsplot_shape x data err_style ci cf n_boot smooth kw w :
  run_shape (Tsplot x data err_style ci cf n_boot smooth) kw w.
Proof.
  unfold run_shape, run, target, wants_colorbar, tsplot. after_subplot.
  unfold pop. rewrite lookup_rest_kwargs_named by is_named.
  cbn [from_option id axis_id].
  repeat emits_step no_colorbar; shape_post_tac.
Qed.

Lemma boxplot_shape vals join_rm names color kw w :
  run_shape (Boxplot vals join_rm names color) kw w.
Proof.
  unfold run_shape, run, target, wants_colorbar, boxplot. after_subplot.
  unfold pop. rewrite lookup_rest_kwargs by not_named.
  generalize (default (VAxis (subplot_axis w)) (kw !! "ax")). intros ax.
  shape_go ax.
Qed.

Lemma kdeplot_shape a npts hist nbins rug shade kw w :
  run_shape (Kdeplot a npts hist nbins rug shade) kw w.
Proof.
  unfold run_shape, run, target, wants_colorbar, kdeplot. after_subplot.
  unfold pop. rewrite lookup_rest_kwargs by not_named.
  generalize (default (VAxis (subplot_axis w)) (kw !! "ax")). intros ax.
  shape_go ax.
Qed.

Lemma violin_shape vals inner position widths join_rm names kw w :
  run_shape (Violin vals inner position widths join_rm names) kw w.
Proof.
  unfold run_shape, run, target, wants_colorbar, violin. after_subplot.
  unfold pop. rewrite lookup_rest_kwargs by not_named.
  generalize (default (VAxis (subplot_axis w)) (kw !! "ax")). intros ax.
  shape_go ax.
Qed.

Lemma symmatplot_shape mat p_mat names cmap cmap_range cbar kw w :
  run_shape (Symmatplot mat p_mat names cmap cmap_range cbar) kw w.
Proof.
  unfold run_shape, run, target, wants_colorbar, symmatplot. after_subplot.
  unfold pop. rewrite lookup_rest_kwargs by not_named.
  generalize (default (VAxis (subplot_axis w)) (kw !! "ax")). intros ax.
  shape_go ax.
Qed.

(** [corrplot] computes the colour range and hands over to [symmatplot]
    with its own [**kwargs]. *)
Lemma corrplot_shape data names sig_stars sig_tail sig_corr cmap cmap_range cbar kw w :
  run_shape (Corrplot data names sig_stars sig_tail sig_corr cmap cmap_range cbar) kw w.
Proof.
  unfold run_shape, run, target, wants_colorbar, corrplot.
  set (kwargs := rest_kwargs _ kw).
  assert (Hax : kwargs !! "ax" = kw !! "ax")
    by (apply lookup_rest_kwargs; not_named).
  rewrite <- Hax.
  assert (Hfail : forall e : exn,
            exists w0, (w0 = w \/ w0 = subplot_world w) /\ exists t,
              w = apply_trace (axis_id (default (VAxis (subplot_axis w)) (kwargs !! "ax"))) t w0 /\
              shape_post (default (VAxis (subplot_axis w)) (kwargs !! "ax")) cbar (inl e) t).
  { intros e. exists w. split; [left; reflexivity |]. exists [].
    split; [reflexivity |]. shape_post_tac. }
  assert (Hsym : forall cr,
            let m := symmatplot (tabulate2 (length data)
                       (fun i j => np_corrcoef (nth i data []) (nth j data [])))
                       (if sig_stars
                        then Some (tabulate2 (length data)
                                     (moss_randomize_corrmat data sig_tail sig_corr))
                        else None) names cmap cr cbar kwargs in
            exists w0, (w0 = w \/ w0 = subplot_world w) /\ exists t,
              (bind m (fun ax => ret ax) w).2 =
                apply_trace (axis_id (default (VAxis (subplot_axis w)) (kwargs !! "ax"))) t w0 /\
              shape_post (default (VAxis (subplot_axis w)) (kwargs !! "ax")) cbar
                (bind m (fun ax => ret ax) w).1 t).
  { intros cr m.
    destruct (symmatplot_shape (tabulate2 (length data)
                       (fun i j => np_corrcoef (nth i data []) (nth j data [])))
                (if sig_stars
                 then Some (tabulate2 (length data)
                              (moss_randomize_corrmat data sig_tail sig_corr))
                 else None) names cmap cr cbar kwargs w)
      as (w0 & Hw0 & t & Hw & Hpost).
    unfold run, target, wants_colorbar in Hw, Hpost. fold m in Hw, Hpost.
    exists w0. split; [exact Hw0 |]. exists t.
    unfold bind, ret. destruct (m w) as [[e | v] w1]; simpl in *; split; assumption. }
  destruct cmap_range as [| s | l].
  - unfold bind at 1. unfold bind at 1. unfold lift.
    destruct (amax _) as [e | m]; [apply Hfail | apply Hsym].
  - unfold bind at 1. destruct (String.eqb s "full"); apply Hsym.
  - unfold bind at 1. apply Hsym.
Qed.

Ltac from_here :=
  eexists; split; [left; reflexivity |];
  match goal with
  | |- exists t, (?m ?w).2 = apply_trace ?a t ?w /\ _ =>
      refine ((_ : emits a m _) w)
  end.

Lemma regplot_shape x y xlabel ylabel markerstyle corr_func kw w :
  run_shape (Regplot x y xlabel ylabel markerstyle corr_func) kw w.
Proof.
  unfold run_shape, run, target, wants_colorbar, regplot.
  destruct (kw !! "ax") as [ax |]; cbn [from_option id];
    [destruct (axis_or_not ax) as [[a ->] | Hn]; [| destruct ax] |].
  all: try (exfalso; eapply Hn; reflexivity).
  all: first [ after_subplot | from_here ]; cbn [axis_id].
  all: repeat emits_step no_colorbar; shape_post_tac.
Qed.

Lemma rugplot_shape a height kw w : run_shape (Rugplot a height) kw w.
Proof.
  unfold run_shape, run, target, wants_colorbar, rugplot.
  destruct (kw !! "ax") as [ax |]; cbn [from_option id];
    [destruct (axis_or_not ax) as [[b ->] | Hn]; [| destruct ax] |].
  all: try (exfalso; eapply Hn; reflexivity).
  all: first [ after_subplot | from_here ]; cbn [axis_id].
  all: repeat emits_step no_colorbar; shape_post_tac.
Qed.

(** X4.  [regplot] and [rugplot] test [ax is None] instead of popping
    the keyword: given an axis, they change that axis and nothing else. *)
Lemma tests_ax_only_axis_changed c kw w a :
  pops_ax c = false -> is_tsplot c = false -> kw !! "ax" = Some (VAxis a) ->
  only_axis_changed a w (run c kw w).2.
Proof.
  intros Hp Ht Hax.
  assert (Hrun : emits a (run c kw) (fun _ t => no_colorbar t)).
  { destruct c; try discriminate Hp; try discriminate Ht;
      unfold run, regplot, rugplot; rewrite Hax; cbn [from_option id].
    all: repeat emits_step no_colorbar; shape_post_tac. }
  destruct (Hrun w) as (t & -> & Hn). repeat split.
  - apply gcf_111_apply_trace.
  - apply colorbars_apply_trace, Hn.
  - intros b Hb. apply axes_apply_trace_ne, Hb.
Qed.

Lemma run_shape_all c kw w : run_shape c kw w.
Proof.
  destruct c.
  - apply tsplot_shape.
  - apply regplot_shape.
  - apply boxplot_shape.
  - apply kdeplot_shape.
  - apply rugplot_shape.
  - apply violin_shape.
  - apply corrplot_shape.
  - apply symmatplot_shape.
Qed.

End Shapes.

(** * The axis a call draws on and returns *)

Section Axis.
Context `{Extern}.

(** A call that returns, returns the value it used as its axis. *)
Lemma run_returns_target c kw w v :
  (run c kw w).1 = inr v -> v = target c kw w /\ exists a, v = VAxis a.
Proof.
  intros Hv. destruct (run_shape_all c kw w) as (w0 & _ & t & _ & Hpost & _).
  destruct (Hpost v Hv) as [-> Ha]. split; [reflexivity | exact Ha].
Qed.

(** X1.  Every function but [tsplot] uses the axis the caller supplies:
    it is the axis the calls are recorded on, and the value returned. *)
Lemma supplied_axis_used c kw w a :
  is_tsplot c = false -> kw !! "ax" = Some (VAxis a) ->
  (exists w0 t, (w0 = w \/ w0 = subplot_world w) /\
                (run c kw w).2 = apply_trace a t w0) /\
  (forall v, (run c kw w).1 = inr v -> v = VAxis a).
Proof.
  intros Hc Hax.
  assert (Ht : target c kw w = VAxis a).
  { destruct c; try discriminate Hc; unfold target; rewrite Hax; reflexivity. }
  split.
  - destruct (run_shape_all c kw w) as (w0 & Hw0 & t & Hw & _).
    rewrite Ht in Hw. exists w0, t. split; [exact Hw0 | exact Hw].
  - intros v Hv. apply run_returns_target in Hv as [-> _]. exact Ht.
Qed.

(** X2.  In [tsplot] the keyword [ax] is bound to the named parameter,
    which is overwritten before it is read: the call behaves as if [ax]
    had not been given. *)
Lemma tsplot_ignores_ax_keyword x data err_style ci cf n_boot smooth kw w :
  tsplot x data err_style ci cf n_boot smooth kw w =
  tsplot x data err_style ci cf n_boot smooth (delete "ax" kw) w.
Proof.
  unfold tsplot.
  assert (Hk : rest_kwargs ["x"; "data"; "err_style"; "ci"; "central_func";
                            "n_boot"; "smooth"; "ax"] (delete "ax" kw) =
               rest_kwargs ["x"; "data"; "err_style"; "ci"; "central_func";
                            "n_boot"; "smooth"; "ax"] kw).
  { apply map_eq. intros k.
    destruct (decide (k ∈ ["x"; "data"; "err_style"; "ci"; "central_func";
                          "n_boot"; "smooth"; "ax"])) as [Hin | Hnin].
    - rewrite !lookup_rest_kwargs_named by exact Hin. reflexivity.
    - rewrite !lookup_rest_kwargs by exact Hnin.
      apply lookup_delete_ne. intros <-. apply Hnin. is_named. }
  rewrite Hk. reflexivity.
Qed.

(** [tsplot] draws on, and returns, whatever [plt.subplot(111)] gives. *)
Lemma tsplot_uses_subplot x data err_style ci cf n_boot smooth kw w v :
  (tsplot x data err_style ci cf n_boot smooth kw w).1 = inr v ->
  v = VAxis (subplot_axis w).
Proof.
  intros Hv.
  apply (run_returns_target (Tsplot x data err_style ci cf n_boot smooth)) in Hv.
  apply Hv.
Qed.

(** X3.  With [ax=None] passed explicitly, [kwargs.pop("ax", ...)]
    returns [None], and no call of the five functions that use it
    returns. *)
Lemma explicit_none_axis_never_returns c kw w v :
  pops_ax c = true -> kw !! "ax" = Some VNone -> (run c kw w).1 <> inr v.
Proof.
  intros Hc Hax Hv. apply run_returns_target in Hv as [-> [a Ha]].
  destruct c; try discriminate Hc; unfold target in Ha; rewrite Hax in Ha;
    discriminate Ha.
Qed.

(** With [ax] omitted, a call that returns, returns the axis of
    [plt.subplot(111)]. *)
Lemma omitted_axis_uses_subplot c kw w v :
  kw !! "ax" = None -> (run c kw w).1 = inr v -> v = VAxis (subplot_axis w).
Proof.
  intros Hax Hv. apply run_returns_target in Hv as [-> _].
  destruct c; unfold target; rewrite ?Hax; reflexivity.
Qed.

End Axis.

(** C1.  The claim: every plotting function, given an axis by the caller,
    draws on that axis and returns it.  [tsplot] does not: called with
    [ax] set to axis 1 while the current figure's subplot is axis 0, it
    returns axis 0, leaves axis 1 empty and records its four calls on
    axis 0. *)
Theorem tsplot_supplied_axis_not_used :
  let r := run (Tsplot x3 d3 ["ci_band"] ci_default sample_central 10 false)
             (<["ax" := VAxis 1]> ∅) two_axes in
  r.1 = inr (VAxis 0) /\ log r.2 1 = [] /\ length (log r.2 0) = 4.
Proof. vm_compute. repeat split. Qed.

(** C6.  The claim: called without an axis ([ax] is [None] or omitted),
    every plotting function creates a new surface, draws on it and returns
    it.  [boxplot] called with [ax=None] raises [AttributeError] instead:
    [kwargs.pop] hands back the [None] that was passed. *)
Theorem boxplot_explicit_none_axis_raises :
  (run (Boxplot d3 false None None) (<["ax" := VNone]> ∅) no_figure).1 =
  inl (AttributeError "'NoneType' object has no attribute").
Proof. vm_compute. reflexivity. Qed.

(** * What a call changes besides its axis *)

(** C2, as stated, fails: [symmatplot] with the default [cbar=True],
    drawing on the supplied axis 0, also adds a colorbar to the figure. *)
Lemma symmatplot_colorbar_changes_figure :
  ~ only_axis_changed 0 two_axes
      (run (Symmatplot m2 None None (VStr "Spectral_r") CRNone true)
         (<["ax" := VAxis 0]> ∅) two_axes).2.
Proof. intros (_ & Hc & _). vm_compute in Hc. discriminate Hc. Qed.

(** [kwargs.pop("ax", plt.subplot(111))] evaluates its default before the
    lookup: [boxplot], given axis 1 while pyplot has no figure, opens a
    figure with a new axis 2 all the same. *)
Lemma boxplot_supplied_axis_still_opens_figure :
  let r := run (Boxplot d3 false None None) (<["ax" := VAxis 1]> ∅) detached_axis in
  r.1 = inr (VAxis 1) /\ gcf_111 detached_axis = None /\ gcf_111 r.2 = Some 2.
Proof. vm_compute. repeat split. Qed.

(** C2, amended.  Whatever the call and whether it returns or raises,
    every axis that existed before and is not the one the call draws on
    keeps exactly the calls it had; and a call that does not ask for a
    colorbar leaves the colorbars of the figure as they were. *)
Theorem plotting_leaves_other_axes_alone `{Extern} (c : call) (kw : kwargs_t) (w : World) :
  others_untouched (target c kw w) w (run c kw w).2 /\
  (wants_colorbar c = false -> colorbars (run c kw w).2 = colorbars w).
Proof.
  destruct (run_shape_all c kw w) as (w0 & Hw0 & t & Hw & Hret & Hnone & Hcb).
  split.
  - intros b Hb Hne. rewrite Hw.
    assert (Hb0 : axes w0 !! b = axes w !! b).
    { destruct Hw0 as [-> | ->]; [reflexivity | apply axes_subplot_world, Hb]. }
    rewrite <- Hb0.
    destruct (axis_or_not (target c kw w)) as [[a Ha] | Hn].
    + rewrite Ha in *. apply axes_apply_trace_ne. simpl. congruence.
    + rewrite (Hnone Hn). reflexivity.
  - intros Hc. rewrite Hw, colorbars_apply_trace by (apply Hcb, Hc).
    destruct Hw0 as [-> | ->]; [reflexivity | apply colorbars_subplot_world].
Qed.

(** * tsplot: the error styles *)

Section Styles.
Context `{Extern}.

Lemma style_func_none s : style_func s = None <-> s ∉ err_styles.
Proof.
  rewrite <- style_func_valid. split.
  - intros -> [f Hf]. discriminate Hf.
  - intros Hn. destruct (style_func s) as [f |]; [| reflexivity].
    exfalso. apply Hn. eexists. reflexivity.
Qed.

Lemma style_func_range s f :
  style_func s = Some f ->
  f ∈ [F_plot_ci_band; F_plot_ci_bars; F_plot_boot_traces; F_plot_obs_traces;
       F_plot_obs_points].
Proof.
  unfold style_func. intros Hf.
  repeat match type of Hf with
         | context [String.eqb s ?k] => destruct (String.eqb s k)
         end;
    try discriminate Hf; injection Hf as <-; is_named.
Qed.

Lemma style_func_boot_traces s :
  style_func s = Some F_plot_boot_traces -> s = "boot_traces".
Proof.
  unfold style_func. intros Hf.
  destruct (String.eqb s "ci_band"); [discriminate Hf |].
  destruct (String.eqb s "ci_bars"); [discriminate Hf |].
  destruct (String.eqb_spec s "boot_traces") as [Hs | _]; [exact Hs |].
  destruct (String.eqb s "obs_traces"); [discriminate Hf |].
  destruct (String.eqb s "obs_points"); discriminate Hf.
Qed.

Lemma cmds_of_app t1 t2 : cmds_of (t1 ++ t2) = cmds_of t1 ++ cmds_of t2.
Proof. unfold cmds_of. apply omap_app. Qed.

Lemma boot_traces_app l1 l2 :
  boot_traces (l1 ++ l2) = boot_traces l1 + boot_traces l2.
Proof.
  unfold boot_traces. induction l1 as [| c l1 IH]; simpl; [reflexivity |].
  rewrite IH. destruct (String.eqb (origin c) "_plot_boot_traces"); lia.
Qed.

Lemma occurrences_app s l1 l2 :
  occurrences s (l1 ++ l2) = occurrences s l1 + occurrences s l2.
Proof. unfold occurrences. rewrite filter_app, length_app. reflexivity. Qed.

Lemma occurrences_boot_traces : occurrences "boot_traces" ["boot_traces"] = 1.
Proof. reflexivity. Qed.

End Styles.

Ltac no_such_style Hr :=
  exfalso; repeat (apply elem_of_cons in Hr as [Hr | Hr]; [discriminate Hr |]);
  apply elem_of_nil in Hr; exact Hr.

(** C3.  If [err_style] lists a name that is not one of [ci_band],
    [ci_bars], [boot_traces], [obs_traces], [obs_points], then [tsplot]
    raises [ValueError], and the message names the first such entry of
    the list. *)
Theorem tsplot_invalid_err_style_raises `{Extern} (x : vec) (data : list vec)
    (err_style : list string) (ci : Q * Q) (cf : list vec -> vec) (n_boot : nat)
    (smooth : bool) (kw : kwargs_t) (w : World) :
  (exists s, s ∈ err_style /\ (s ∉ err_styles)) ->
  exists done s rest,
    err_style = done ++ s :: rest /\
    Forall (fun v => v ∈ err_styles) done /\ (s ∉ err_styles) /\
    (tsplot x data err_style ci cf n_boot smooth kw w).1 =
    inl (ValueError (s +:+ " is not a valid err_style")).
Proof.
  intros (s0 & Hs0 & Hbad).
  pose (R := fun (r : result pyval) (_ : list effect) =>
    exists done s rest,
      err_style = done ++ s :: rest /\
      Forall (fun v => v ∈ err_styles) done /\ (s ∉ err_styles) /\
      r = inl (ValueError (s +:+ " is not a valid err_style"))).
  unfold tsplot.
  match goal with
  | |- context [bind plt_subplot ?f w] =>
      destruct (emits_after_subplot f (subplot_axis w) R w) as (t & _ & Ht);
        [| exact Ht]
  end.
  unfold pop. rewrite lookup_rest_kwargs_named by is_named.
  cbn [from_option id].
  do 4 emits_step no_colorbar.
  apply emits_bind.
  apply (emits_forM_prefix _ (fun done _ => Forall (fun s => s ∈ err_styles) done)).
  - constructor.
  - intros done s rest t1 Hl Hdone.
    apply emits_bind, emits_dispatch.
    destruct (style_func s) as [f |] eqn:Hf.
    + pose proof (style_func_range _ _ Hf) as Hr.
      pose proof (proj1 (style_func_valid _) (ex_intro _ _ Hf)) as Hv.
      destruct f; try no_such_style Hr.
      all: repeat emits_step no_colorbar.
      all: apply Forall_app; split; [assumption | constructor; [assumption | constructor]].
    + emits_step no_colorbar.
      exists done, s, rest. repeat split; try assumption.
      apply style_func_none. assumption.
  - intros t Hall. exfalso. apply Hbad.
    rewrite Forall_forall in Hall. apply Hall, Hs0.
Qed.

Lemma tsplot_invalid_err_style_raises_witness :
  exists done s rest,
    ["ci_band"; "dots"; "blobs"] = done ++ s :: rest /\
    Forall (fun v => v ∈ err_styles) done /\ (s ∉ err_styles) /\
    (tsplot x3 d3 ["ci_band"; "dots"; "blobs"] ci_default sample_central 10 false
       ∅ no_figure).1 =
    inl (ValueError (s +:+ " is not a valid err_style")).
Proof.
  apply (tsplot_invalid_err_style_raises x3 d3 ["ci_band"; "dots"; "blobs"]
           ci_default sample_central 10 false ∅ no_figure).
  exists "blobs". split; [is_named | unfold err_styles; not_named].
Defined.

(** * tsplot: the bootstrap traces *)

Ltac bound_tac :=
  unfold bound_post in *;
  rewrite ?cmds_of_app, ?boot_traces_app, ?occurrences_app in *;
  simpl boot_traces in *;
  try lia.

(** C8, as stated, fails: every entry of [err_style] is dispatched, so a
    list that names [boot_traces] twice draws twice 250 traces. *)
Lemma tsplot_boot_traces_listed_twice :
  let r := run (Tsplot x3 d3 ["boot_traces"; "boot_traces"] ci_default
                  sample_central 300 false) ∅ no_figure in
  "boot_traces" ∈ ["boot_traces"; "boot_traces"] /\
  r.1 = inr (VAxis 0) /\
  boot_traces (log r.2 0) = 500 /\ ~ (boot_traces (log r.2 0) <= 250).
Proof.
  split; [is_named |]. vm_compute. repeat split.
  intros Hle. apply (Nat.leb_le 500 250) in Hle. discriminate Hle.
Qed.

(** C8, amended.  Each entry [boot_traces] of [err_style] draws at most
    250 bootstrap traces, however large [n_boot] is: a call adds at most
    250 times the number of such entries to the axis, and so at most 250
    when the style is listed once. *)
Theorem tsplot_boot_traces_bound `{Extern} (x : vec) (data : list vec)
    (err_style : list string) (ci : Q * Q) (cf : list vec -> vec) (n_boot : nat)
    (smooth : bool) (kw : kwargs_t) (w : World) :
  let a := subplot_axis w in
  boot_traces (log (tsplot x data err_style ci cf n_boot smooth kw w).2 a) <=
  boot_traces (log w a) + 250 * occurrences "boot_traces" err_style.
Proof.
  intros a.
  pose (R := fun (_ : result pyval) (t : list effect) =>
    bound_post (occurrences "boot_traces" err_style) t).
  unfold tsplot.
  match goal with
  | |- context [bind plt_subplot ?f w] =>
      destruct (emits_after_subplot f a R w) as (t & Hw & Ht)
  end.
  2:{ rewrite Hw, log_apply_trace, log_subplot_world, boot_traces_app.
      unfold R, bound_post in Ht. lia. }
  unfold pop. rewrite lookup_rest_kwargs_named by is_named.
  cbn [from_option id]. subst a R.
  do 4 emits_step no_colorbar.
  apply emits_bind.
  apply (emits_forM_prefix _
           (fun done t => bound_post (occurrences "boot_traces" done) t)).
  - unfold bound_post. simpl. lia.
  - intros done s rest t1 Hl Hdone. subst err_style.
    assert (Hrest : occurrences "boot_traces" [s] <=
                    occurrences "boot_traces" (s :: rest)).
    { unfold occurrences. rewrite !filter_cons. case_decide; simpl; lia. }
    apply emits_bind, emits_dispatch.
    destruct (style_func s) as [f |] eqn:Hf.
    + pose proof (style_func_range _ _ Hf) as Hr.
      destruct f; try no_such_style Hr.
      all: repeat emits_step no_colorbar; bound_tac.
      apply style_func_boot_traces in Hf as ->.
      rewrite occurrences_boot_traces.
      unfold n_lines. simpl. rewrite length_take. lia.
    + emits_step no_colorbar. bound_tac.
  - intros t Hall. repeat emits_step no_colorbar. all: bound_tac.
Qed.

(** * boxplot and violin: the check of [names] *)

Section Counting.

Lemma xticklabels_snoc l c :
  method c = "set_xticklabels" -> xticklabels (l ++ [c]) = Some (args c).
Proof.
  intros Hc. unfold xticklabels. rewrite omap_app. simpl. rewrite Hc. simpl.
  apply last_snoc.
Qed.

Lemma xticklabels_snoc_other l c :
  method c <> "set_xticklabels" -> xticklabels (l ++ [c]) = xticklabels l.
Proof.
  intros Hc. unfold xticklabels. rewrite omap_app. simpl.
  destruct (String.eqb_spec (method c) "set_xticklabels") as [Heq | _];
    [contradiction |]. simpl. rewrite app_nil_r. reflexivity.
Qed.

Lemma count_method_app meth l1 l2 :
  count_method meth (l1 ++ l2) = count_method meth l1 + count_method meth l2.
Proof. unfold count_method. rewrite filter_app, length_app. reflexivity. Qed.

Lemma count_method_snoc_other meth l c :
  method c <> meth -> count_method meth (l ++ [c]) = count_method meth l.
Proof.
  intros Hc. rewrite count_method_app. unfold count_method at 2.
  rewrite filter_cons, decide_False by exact Hc. simpl. lia.
Qed.

End Counting.

Ltac drawn_tac :=
  lazymatch goal with |- emits _ _ _ => fail | _ => idtac end;
  unfold drawn_post in *; intros; try discriminate;
  rewrite ?cmds_of_app, ?count_method_app;
  cbn [cmds_of omap list_omap];
  unfold count_method in *; simpl; try lia.

Ltac emits_to_loop P :=
  repeat (lazymatch goal with
          | |- emits _ (bind (forM_ _ _) _) _ => fail
          | _ => emits_step P
          end).

Section Names.
Context `{Extern}.

Lemma bind_rel {A B} (Rel : result B * World -> result B * World -> Prop)
    (m : M A) (f f' : A -> M B) w :
  (forall e w1, Rel (inl e, w1) (inl e, w1)) ->
  (forall x w1, Rel (f x w1) (f' x w1)) ->
  Rel (bind m f w) (bind m f' w).
Proof.
  intros He Hf. unfold bind.
  destruct (m w) as [[e | x] w1]; [apply He | apply Hf].
Qed.

Lemma bind_lift_inr {A B} (x : A) (f : A -> M B) w :
  bind (lift (inr x)) f w = f x w.
Proof. reflexivity. Qed.

Ltac rel_step :=
  first [ apply bind_rel; [intros; exact I | intros ? ?]
        | match goal with
          | |- names_rel _ _ ((let (_, _) := ?x in _) _) _ => destruct x
          end ].

Lemma boxplot_names_rel vals join_rm names color kw w a :
  default (VAxis (subplot_axis w)) (kw !! "ax") = VAxis a ->
  names_rel (length vals) names
    (boxplot vals join_rm (Some names) color kw w)
    (boxplot vals join_rm None color kw w).
Proof.
  intros Hax. unfold boxplot. rewrite !bind_subplot. unfold pop.
  rewrite lookup_rest_kwargs by not_named. rewrite Hax.
  repeat rel_step.
  unfold names_rel, bind, ret, raise. simpl.
  destruct (length vals =? length names)%nat eqn:Hlen; simpl.
  - split; [reflexivity |]. rewrite log_draw. apply xticklabels_snoc. reflexivity.
  - split; reflexivity.
Qed.

Lemma violin_names_rel vals bins inner position widths join_rm names kw w a :
  default (VAxis (subplot_axis w)) (kw !! "ax") = VAxis a ->
  violin_bins vals = inr bins ->
  names_rel (length bins) names
    (violin vals inner position widths join_rm (Some names) kw w)
    (violin vals inner position widths join_rm None kw w).
Proof.
  intros Hax Hbins. unfold violin. rewrite !bind_subplot. unfold pop.
  rewrite lookup_rest_kwargs by not_named. rewrite Hax, Hbins.
  rewrite !bind_lift_inr.
  repeat rel_step.
  set (pos := match position with
              | PosNone => _ | PosScalar p => _ | PosSeq l => l end).
  unfold names_rel, bind, lift, ret, raise, ax_call, as_axis, emit. simpl.
  destruct (list_getitem pos 0) as [e | first];
    destruct (list_getitem pos (length pos - 1)) as [e' | last];
    destruct (length bins =? length names)%nat; simpl; try exact I.
  - split; [reflexivity |]. rewrite !log_draw.
    rewrite xticklabels_snoc_other by discriminate.
    apply xticklabels_snoc. reflexivity.
  - split; [reflexivity |]. intros meth Hm. rewrite log_draw.
    symmetry. apply count_method_snoc_other. simpl. congruence.
Qed.

Lemma boxplot_draws vals join_rm names color kw w a :
  default (VAxis (subplot_axis w)) (kw !! "ax") = VAxis a ->
  exists t,
    (boxplot vals join_rm names color kw w).2 = apply_trace a t (subplot_world w) /\
    drawn_post "boxplot" (boxplot vals join_rm names color kw w).1 t.
Proof.
  intros Hax. unfold boxplot. apply emits_after_subplot. unfold pop.
  rewrite lookup_rest_kwargs by not_named. rewrite Hax.
  repeat emits_step (fun _ : list effect => True). all: try exact I.
  all: drawn_tac.
Qed.

Lemma violin_bins_nonempty vals bins : violin_bins vals = inr bins -> bins <> [].
Proof.
  unfold violin_bins, violin_reshape, violin_asarrays. intros Hb ->.
  repeat match type of Hb with
         | context [match ?x with _ => _ end] => destruct x; try discriminate Hb
         end.
Qed.

Lemma violin_draws vals inner position widths join_rm names kw w a :
  default (VAxis (subplot_axis w)) (kw !! "ax") = VAxis a ->
  exists t,
    (violin vals inner position widths join_rm names kw w).2 =
      apply_trace a t (subplot_world w) /\
    drawn_post "fill_betweenx"
      (violin vals inner position widths join_rm names kw w).1 t.
Proof.
  intros Hax. unfold violin. apply emits_after_subplot. unfold pop.
  rewrite lookup_rest_kwargs by not_named. rewrite Hax.
  apply emits_bind.
  destruct (violin_bins vals) as [e | bins] eqn:Hbins; apply emits_lift;
    [drawn_tac |].
  pose proof (violin_bins_nonempty _ _ Hbins) as Hne.
  emits_to_loop (fun _ : list effect => True).
  all: try drawn_tac.
  apply emits_bind.
  apply (emits_forM_prefix _ (fun (done : list (nat * vec)) t =>
           done <> [] -> 1 <= count_method "fill_betweenx" (cmds_of t))).
  - intros Hd. contradiction.
  - intros done [i b] rest t1 Hl Hdone.
    repeat emits_step (fun _ : list effect => True). all: try exact I.
    all: try drawn_tac.
  - intros t Hall.
    assert (Hz : zip (seq 0 (length bins)) bins <> []).
    { destruct bins; [contradiction | simpl; discriminate]. }
    specialize (Hall Hz).
    repeat emits_step (fun _ : list effect => True). all: try exact I.
    all: drawn_tac.
Qed.

(** The two facts every statement about [names] rests on. *)
Lemma names_rel_run c names kw w bins v :
  bins_of c = Some (inr bins) ->
  (run (with_names c None) kw w).1 = inr v ->
  names_rel (length bins) names
    (run (with_names c (Some names)) kw w) (run (with_names c None) kw w) /\
  exists t,
    (run (with_names c None) kw w).2 =
      apply_trace (axis_id v) t (subplot_world w) /\
    1 <= count_method (drawing_method c) (cmds_of t).
Proof.
  intros Hbins Hv.
  destruct (run_returns_target _ _ _ _ Hv) as [Ht [a ->]].
  destruct c; try discriminate Hbins; simpl in *.
  - injection Hbins as <-. symmetry in Ht. split.
    + apply (boxplot_names_rel _ _ _ _ _ _ a Ht).
    + destruct (boxplot_draws vals join_rm None color kw w a Ht) as (t & Hw & Hd).
      exists t. split; [exact Hw | apply (Hd _ Hv)].
  - injection Hbins as Hbins. symmetry in Ht. split.
    + apply (violin_names_rel _ _ _ _ _ _ _ _ _ a Ht Hbins).
    + destruct (violin_draws vals inner position widths join_rm None kw w a Ht)
        as (t & Hw & Hd).
      exists t. split; [exact Hw | apply (Hd _ Hv)].
Qed.

End Names.



(** C9.  The length of [names] is checked after the drawing: for a call
    of [boxplot] or [violin] that returns when [names] is left out, a
    [names] list of the wrong length makes the call raise the
    [ValueError] with the boxes (the violins) already on the axis. *)
Theorem names_check_after_drawing `{Extern} (c : call) (names : list string)
    (kw : kwargs_t) (w : World) (bins : list vec) (v : pyval) :
  bins_of c = Some (inr bins) ->
  (run (with_names c None) kw w).1 = inr v ->
  length names <> length bins ->
  let r := run (with_names c (Some names)) kw w in
  r.1 = inl names_mismatch /\
  count_method (drawing_method c) (log w (axis_id v)) <
  count_method (drawing_method c) (log r.2 (axis_id v)).
Proof.
  intros Hbins Hv Hlen r.
  destruct (names_rel_run c names kw w bins v Hbins Hv) as [Hrel (t & Hw & Hd)].
  unfold names_rel in Hrel. rewrite Hv in Hrel. fold r in Hrel. simpl in Hrel.
  destruct (Nat.eqb_spec (length bins) (length names)) as [Heq | _];
    [congruence |].
  destruct Hrel as [Hr Hcount]. split; [exact Hr |].
  rewrite Hcount by (destruct c; discriminate).
  rewrite Hw, log_apply_trace, log_subplot_world, count_method_app. lia.
Qed.

Lemma names_check_after_drawing_witness :
  let b := run (Boxplot d3 false (Some ["a"]) None) ∅ no_figure in
  let v := run (Violin (PySeqs d3) "box" PosNone (3 # 10)%Q false (Some ["a"]))
             ∅ no_figure in
  (b.1 = inl names_mismatch /\
   count_method "boxplot" (log no_figure 0) < count_method "boxplot" (log b.2 0)) /\
  (v.1 = inl names_mismatch /\
   count_method "fill_betweenx" (log no_figure 0) <
   count_method "fill_betweenx" (log v.2 0)).
Proof.
  split.
  - apply (names_check_after_drawing (Boxplot d3 false None None) ["a"]
             ∅ no_figure d3 (VAxis 0));
      [reflexivity | vm_compute; reflexivity | discriminate].
  - apply (names_check_after_drawing
             (Violin (PySeqs d3) "box" PosNone (3 # 10)%Q false None) ["a"]
             ∅ no_figure d3 (VAxis 0));
      [reflexivity | vm_compute; reflexivity | discriminate].
Defined.

(** * violin: the dimensions of [vals] *)

(** C5.  An array with more than two dimensions makes [violin] raise the
    [ValueError] of its input check, and no call has been recorded on any
    axis by then. *)
Theorem violin_too_many_dimensions `{Extern} (a : ndarray) (inner : string)
    (position : position_t) (widths : Q) (join_rm : bool)
    (names : option (list string)) (kw : kwargs_t) (w : World) :
  2 < length (shape a) ->
  let r := violin (NdArray a) inner position widths join_rm names kw w in
  r.1 = inl too_many_dims /\ forall b, log r.2 b = log w b.
Proof.
  intros Hdim r. subst r. unfold violin. rewrite bind_subplot. unfold pop.
  assert (Hbins : violin_bins (NdArray a) = inl too_many_dims).
  { unfold violin_bins, violin_reshape.
    destruct (shape a) as [| n [| m [| k sh]]]; simpl in Hdim; try lia.
    reflexivity. }
  rewrite Hbins. unfold bind, lift. simpl.
  split; [reflexivity | apply log_subplot_world].
Qed.

Lemma violin_too_many_dimensions_witness :
  let r := violin (NdArray (Arr [2; 1; 2] [1%Q; 2%Q; 3%Q; 4%Q])) "box" PosNone
             (3 # 10)%Q false None ∅ no_figure in
  r.1 = inl too_many_dims /\ forall b, log r.2 b = log no_figure b.
Proof.
  apply (violin_too_many_dimensions (Arr [2; 1; 2] [1%Q; 2%Q; 3%Q; 4%Q]) "box"
           PosNone (3 # 10)%Q false None ∅ no_figure).
  simpl. lia.
Defined.

(** * violin: the width of a violin *)

Section Peak.



End Peak.




(** * Calls that return *)

Ltac returns_tac :=
  lazymatch goal with |- emits _ _ _ => fail | _ => idtac end;
  unfold returns_post in *;
  first [ reflexivity | exact I | assumption
        | match goal with H : _ = inl _ |- _ => discriminate H end
        | match goal with H : ?b = true, H' : ?b = false |- _ => congruence end ].


Section Returns.
Context `{Extern}.






(** [a.max()] is an element of [a]. *)
Lemma amax_elem v m : amax v = inr m -> m ∈ v.
Proof.
  destruct v as [| x r]; [discriminate |]. intros [= <-].
  induction r as [| y r IH]; simpl; [left |].
  unfold Qmax at 1, GenericMinMax.gmax.
  destruct (Qcompare y (foldr Qmax x r)).
  - apply elem_of_cons. right. left.
  - apply elem_of_cons in IH as [IH | IH].
    + rewrite IH. left.
    + right. right. exact IH.
  - apply elem_of_cons. right. left.
Qed.

Lemma amax_ok v : v <> [] -> exists m, amax v = inr m.
Proof. destruct v; [contradiction | eexists; reflexivity]. Qed.

Lemma amin_ok v : v <> [] -> exists m, amin v = inr m.
Proof. destruct v; [contradiction | eexists; reflexivity]. Qed.

Lemma length_linspace a b n : length (linspace a b n) = n.
Proof.
  unfold linspace. destruct n as [| [| n]]; [reflexivity | reflexivity |].
  rewrite length_map, length_seq. reflexivity.
Qed.

Lemma select_nonempty (x : vec) (mask : list bool) i :
  length x = length mask -> mask !! i = Some true -> select x mask <> [].
Proof.
  revert mask i. induction x as [| xi x IH]; intros [| b mask] i Hlen Hi;
    try discriminate Hlen; try discriminate Hi.
  simpl. destruct b; [discriminate |].
  destruct i as [| i]; [discriminate Hi |].
  apply (IH mask i); [simpl in Hlen; lia | exact Hi].
Qed.

Context `{!KdeLaws}.

Lemma kde_support_ok a npts :
  a <> [] -> npts <> 0 ->
  exists y, _kde_support a (stats_gaussian_kde a) npts = inr y /\ y <> [].
Proof.
  intros Ha Hn. unfold _kde_support.
  destruct (amin_ok a Ha) as [mn ->]. destruct (amax_ok a Ha) as [mx ->].
  set (x := linspace _ _ _). set (y := stats_gaussian_kde a x).
  assert (Hlen : length y = npts * 2).
  { unfold y. rewrite kde_length. apply length_linspace. }
  assert (Hy : y <> []) by (intros Hy; rewrite Hy in Hlen; simpl in Hlen; lia).
  destruct (amax_ok y Hy) as [ymax Hymax]. rewrite Hymax.
  eexists. split; [reflexivity |].
  pose proof (amax_elem _ _ Hymax) as Hin.
  apply list_elem_of_lookup in Hin as [i Hi].
  apply (select_nonempty _ _ i).
  - rewrite length_map. unfold x at 1. rewrite length_linspace. lia.
  - rewrite list_lookup_fmap, Hi. simpl. f_equal.
    pose proof (kde_positive a x) as Hpos. fold y in Hpos.
    rewrite Forall_forall in Hpos.
    assert (Hp : (0 < ymax)%Q) by (apply Hpos; eapply list_elem_of_lookup_2; exact Hi).
    unfold Qltb. apply negb_true_iff. apply not_true_iff_false.
    rewrite Qle_bool_iff. apply Qlt_not_le.
    apply Qlt_le_trans with (ymax * 1)%Q.
    + apply Qmult_lt_l; [exact Hp | reflexivity].
    + rewrite Qmult_1_r. apply Qle_refl.
Qed.

Lemma scale_density_ok dens widths :
  dens <> [] -> exists scl scaled, scale_density dens widths = inr (scl, scaled).
Proof.
  intros Hd. unfold scale_density. destruct (amax_ok dens Hd) as [m ->].
  eexists _, _. reflexivity.
Qed.

Lemma kde_nonempty a v : v <> [] -> stats_gaussian_kde a v <> [].
Proof.
  intros Hv Hk. apply Hv. apply length_zero_iff_nil.
  rewrite <- (kde_length a v), Hk. reflexivity.
Qed.



Lemma list_getitem_ok {A} (l : list A) i :
  i < length l -> exists x, list_getitem l i = inr x.
Proof.
  intros Hi. unfold list_getitem.
  destruct (lookup_lt_is_Some_2 l i Hi) as [x ->]. eexists. reflexivity.
Qed.





Lemma mask_triu_ok mat : wide (length mat) mat -> exists m, mask_triu mat = inr m.
Proof.
  intros [_ Hcols]. unfold mask_triu.
  assert (Hall : forallb (fun row => (length mat <=? length row)%nat) mat = true).
  { apply forallb_forall. intros row Hrow. apply Nat.leb_le.
    rewrite Forall_forall in Hcols. apply Hcols, list_elem_of_In, Hrow. }
  rewrite Hall. eexists. reflexivity.
Qed.







End Returns.

Instance sample_kde_laws : @KdeLaws sample_extern.
Proof.
  split; intros a v; simpl.
  - apply length_map.
  - apply Forall_fmap, Forall_true. intros x. reflexivity.
Qed.



(** * Further properties of the plotting functions

    What the calls add to their axis, beyond the statements above. *)

Section Added.

Lemma new_cmds_trace a t w w0 :
  log w0 a = log w a -> new_cmds w (apply_trace a t w0) a = cmds_of t.
Proof.
  intros Hl. unfold new_cmds. rewrite log_apply_trace, Hl.
  apply drop_app_length.
Qed.

Lemma new_cmds_after_subplot w t :
  new_cmds w (apply_trace (subplot_axis w) t (subplot_world w)) (subplot_axis w) =
  cmds_of t.
Proof. apply new_cmds_trace, log_subplot_world. Qed.

Lemma calls_of_app meth l1 l2 :
  calls_of meth (l1 ++ l2) = calls_of meth l1 ++ calls_of meth l2.
Proof. apply filter_app. Qed.

Lemma gcf_111_subplot_world w : gcf_111 (subplot_world w) = Some (subplot_axis w).
Proof.
  unfold subplot_world, subplot_axis, plt_subplot.
  destruct (gcf_111 w) eqn:Hg; simpl; [exact Hg | reflexivity].
Qed.

Lemma dom_apply_trace a t w b :
  b ∈ dom (axes w) -> b ∈ dom (axes (apply_trace a t w)).
Proof.
  revert w. induction t as [| e t IH]; intros w Hb; [exact Hb |].
  simpl. apply IH. destruct e; simpl; [| exact Hb].
  apply elem_of_dom. destruct (decide (a = b)) as [-> | Hne].
  - rewrite lookup_insert_eq. eexists. reflexivity.
  - rewrite lookup_insert_ne by exact Hne. apply elem_of_dom, Hb.
Qed.

Lemma length_zip_seq {A} (l : list A) : length (zip (seq 0 (length l)) l) = length l.
Proof. rewrite length_zip_with, length_seq. lia. Qed.

Lemma zip_seq_middle {A} (l : list A) done i b rest :
  zip (seq 0 (length l)) l = done ++ (i, b) :: rest ->
  i = length done /\ l !! i = Some b.
Proof.
  intros Hz.
  assert (Hk : zip (seq 0 (length l)) l !! length done = Some (i, b)).
  { rewrite Hz. apply list_lookup_middle. reflexivity. }
  apply lookup_zip_with_Some in Hk as (i' & b' & [= <- <-] & Hi & Hb).
  apply lookup_seq in Hi as [-> _]. split; [reflexivity | exact Hb].
Qed.

Lemma list_getitem_inr {A} (l : list A) i x :
  list_getitem l i = inr x -> l !! i = Some x.
Proof.
  unfold list_getitem. destruct (l !! i); [intros [= ->]; reflexivity | discriminate].
Qed.


End Added.

(** ** The axis: the lemmas of section Axis on concrete calls *)

Lemma supplied_axis_used_witness :
  let c := Violin (PySeqs d3) "box" PosNone (3 # 10)%Q false None in
  let kw : kwargs_t := <["ax" := VAxis 1]> ∅ in
  (exists w0 t, (w0 = two_axes \/ w0 = subplot_world two_axes) /\
                (run c kw two_axes).2 = apply_trace 1 t w0) /\
  (forall v, (run c kw two_axes).1 = inr v -> v = VAxis 1).
Proof.
  apply (@supplied_axis_used sample_extern
           (Violin (PySeqs d3) "box" PosNone (3 # 10)%Q false None)
           (<["ax" := VAxis 1]> ∅) two_axes 1); reflexivity.
Defined.

Lemma explicit_none_axis_never_returns_witness :
  (run (Symmatplot m2 None None (VStr "Spectral_r") CRNone true)
     (<["ax" := VNone]> ∅) no_figure).1 <> inr (VAxis 0).
Proof.
  apply (@explicit_none_axis_never_returns sample_extern
           (Symmatplot m2 None None (VStr "Spectral_r") CRNone true)
           (<["ax" := VNone]> ∅) no_figure (VAxis 0)); reflexivity.
Defined.

Lemma tests_ax_only_axis_changed_witness :
  only_axis_changed 1 two_axes
    (run (Rugplot (Arr [3] x3) None) (<["ax" := VAxis 1]> ∅) two_axes).2.
Proof.
  apply (@tests_ax_only_axis_changed sample_extern (Rugplot (Arr [3] x3) None)
           (<["ax" := VAxis 1]> ∅) two_axes 1); reflexivity.
Defined.

(** ** plt.subplot(111) is called first *)

Lemma subplot_first_trace `{Extern} c kw w :
  subplot_first c = true ->
  exists a t, (run c kw w).2 = apply_trace a t (subplot_world w).
Proof.
  intros Hc. exists (axis_id (target c kw w)).
  assert (Hgo : forall (f : pyval -> M pyval) a,
            emits a (f (VAxis (subplot_axis w))) (fun _ _ => True) ->
            exists t, (bind plt_subplot f w).2 = apply_trace a t (subplot_world w)).
  { intros f a Hf. destruct (emits_after_subplot f a _ w Hf) as (t & Hw & _).
    exists t. exact Hw. }
  destruct c; try discriminate Hc; unfold run, target;
    [unfold tsplot | unfold boxplot | unfold kdeplot | unfold violin
     | unfold symmatplot];
    apply Hgo; unfold pop.
  - rewrite lookup_rest_kwargs_named by is_named. cbn [from_option id axis_id].
    repeat emits_step (fun _ : list effect => True). all: exact I.
  - rewrite lookup_rest_kwargs by not_named.
    generalize (default (VAxis (subplot_axis w)) (kw !! "ax")). intros ax.
    destruct (axis_or_not ax) as [[? ->] | ?]; simpl axis_id;
      repeat emits_step (fun _ : list effect => True). all: exact I.
  - rewrite lookup_rest_kwargs by not_named.
    generalize (default (VAxis (subplot_axis w)) (kw !! "ax")). intros ax.
    destruct (axis_or_not ax) as [[? ->] | ?]; simpl axis_id;
      repeat emits_step (fun _ : list effect => True). all: exact I.
  - rewrite lookup_rest_kwargs by not_named.
    generalize (default (VAxis (subplot_axis w)) (kw !! "ax")). intros ax.
    destruct (axis_or_not ax) as [[? ->] | ?]; simpl axis_id;
      repeat emits_step (fun _ : list effect => True). all: exact I.
  - rewrite lookup_rest_kwargs by not_named.
    generalize (default (VAxis (subplot_axis w)) (kw !! "ax")). intros ax.
    destruct (axis_or_not ax) as [[? ->] | ?]; simpl axis_id;
      repeat emits_step (fun _ : list effect => True). all: exact I.
Qed.

(** X5.  [tsplot], [boxplot], [kdeplot], [violin] and [symmatplot] call
    [plt.subplot(111)] before they look at [ax]: whatever the keywords
    and whether the call returns or raises, the current figure has a
    subplot afterwards, and when pyplot had none before the call, that
    subplot is an axis that did not exist. *)
Theorem subplot_created_whatever_ax `{Extern} (c : call) (kw : kwargs_t) (w : World) :
  subplot_first c = true ->
  let w' := (run c kw w).2 in
  gcf_111 w' = Some (subplot_axis w) /\
  (gcf_111 w = None ->
   (subplot_axis w ∉ dom (axes w)) /\ subplot_axis w ∈ dom (axes w')).
Proof.
  intros Hc w'. subst w'.
  destruct (subplot_first_trace c kw w Hc) as (a & t & ->).
  split.
  - rewrite gcf_111_apply_trace. apply gcf_111_subplot_world.
  - intros Hg. split.
    + unfold subplot_axis. rewrite Hg. apply is_fresh.
    + apply dom_apply_trace. unfold subplot_world, subplot_axis, plt_subplot.
      rewrite Hg. simpl. apply elem_of_dom. rewrite lookup_insert_eq.
      eexists. reflexivity.
Qed.

Lemma subplot_created_whatever_ax_witness :
  let w' := (run (Boxplot d3 false None None) (<["ax" := VAxis 1]> ∅)
               detached_axis).2 in
  gcf_111 w' = Some (subplot_axis detached_axis) /\
  (gcf_111 detached_axis = None ->
   (subplot_axis detached_axis ∉ dom (axes detached_axis)) /\
   subplot_axis detached_axis ∈ dom (axes w')).
Proof.
  apply (@subplot_created_whatever_ax sample_extern (Boxplot d3 false None None)
           (<["ax" := VAxis 1]> ∅) detached_axis).
  reflexivity.
Defined.

(** ** tsplot *)

(** X6.  A [tsplot] that returns has added to its axis, in this order:
    the line it draws to learn its colour, the removal of that line, one
    call for each entry of [err_style], every one in that colour, and
    last the central trace, in that colour too and with the keywords of
    the first line. *)
Theorem tsplot_trace `{Extern} (x : vec) (data : list vec)
    (err_style : list string) (ci : Q * Q) (cf : list vec -> vec) (n_boot : nat)
    (smooth : bool) (kw : kwargs_t) (w : World) (v : pyval) :
  let r := tsplot x data err_style ci cf n_boot smooth kw w in
  r.1 = inr v ->
  exists kwargs c styles,
    new_cmds w r.2 (subplot_axis w) =
      mkCmd "tsplot" "plot" [VVec x; VVec (cf data)] kwargs ::
      mkCmd "tsplot" "line.remove" [] ∅ :: styles ++
      [mkCmd "tsplot" "plot" [VVec x; VVec (cf data)] (<["color" := c]> kwargs)] /\
    kwargs !! "color" = None /\
    length styles = length err_style /\
    Forall (fun cmd => kws cmd !! "color" = Some c) styles.
Proof.
  intros r. subst r.
  pose (R := tsplot_post x (cf data) (length err_style)).
  unfold tsplot.
  match goal with
  | |- context [bind plt_subplot ?f w] =>
      destruct (emits_after_subplot f (subplot_axis w) R w) as (t & Hw & Ht)
  end.
  2:{ intros Hv. rewrite Hw, new_cmds_after_subplot. apply (Ht v Hv). }
  unfold pop. rewrite lookup_rest_kwargs_named by is_named.
  cbn [from_option id]. subst R.
  set (kwargs := delete "ax" _).
  apply emits_bind, emits_plot_line. intros l. cbn [call_kwargs]. cbv beta iota.
  apply emits_bind, emits_line_remove; [reflexivity |]. cbv beta iota.
  set (c := line_color l kwargs).
  apply emits_bind.
  apply (emits_forM_prefix _ (fun (done : list string) t =>
           length (cmds_of t) = length done /\
           Forall (fun cmd => kws cmd !! "color" = Some c) (cmds_of t))).
  - split; [reflexivity | constructor].
  - intros done s rest t1 Hl [Hlen Hcol].
    apply emits_bind, emits_dispatch.
    destruct (style_func s) as [f |] eqn:Hf.
    + pose proof (style_func_range _ _ Hf) as Hr.
      destruct f; try no_such_style Hr.
      all: repeat emits_step no_colorbar.
      all: rewrite cmds_of_app, length_app, Hlen, length_app; simpl.
      all: split; [reflexivity |].
      all: apply Forall_app; split; [exact Hcol |].
      all: repeat constructor.
    + emits_step no_colorbar. intros v' Hv'. discriminate Hv'.
  - intros t [Hlen Hcol].
    apply emits_bind, emits_ax_call. cbn [call_kwargs].
    destruct (kwargs !! "color") eqn:Hc.
    + intros v' Hv'. discriminate Hv'.
    + apply emits_ret. intros v' _.
      exists kwargs, c, (cmds_of t).
      rewrite !cmds_of_app. simpl.
      repeat split; try assumption; reflexivity.
Qed.

Lemma tsplot_trace_witness :
  let r := tsplot x3 d3 ["ci_band"; "obs_traces"] ci_default sample_central 10
             false ∅ no_figure in
  exists kwargs c styles,
    new_cmds no_figure r.2 (subplot_axis no_figure) =
      mkCmd "tsplot" "plot" [VVec x3; VVec (sample_central d3)] kwargs ::
      mkCmd "tsplot" "line.remove" [] ∅ :: styles ++
      [mkCmd "tsplot" "plot" [VVec x3; VVec (sample_central d3)]
         (<["color" := c]> kwargs)] /\
    kwargs !! "color" = None /\
    length styles = length ["ci_band"; "obs_traces"] /\
    Forall (fun cmd => kws cmd !! "color" = Some c) styles.
Proof.
  apply (@tsplot_trace sample_extern x3 d3 ["ci_band"; "obs_traces"] ci_default
           sample_central 10 false ∅ no_figure (VAxis 0)).
  vm_compute. reflexivity.
Defined.

(** X7.  A [color] keyword makes [tsplot] fail: with documented error
    styles the call raises [TypeError] at the final [ax.plot], which is
    given [color] twice, after the first line, its removal and every
    error style have been drawn. *)
Theorem tsplot_color_keyword_raises `{Extern} (x : vec) (data : list vec)
    (err_style : list string) (ci : Q * Q) (cf : list vec -> vec) (n_boot : nat)
    (smooth : bool) (kw : kwargs_t) (w : World) (c0 : pyval) :
  kw !! "color" = Some c0 ->
  Forall (fun s => s ∈ err_styles) err_style ->
  let r := tsplot x data err_style ci cf n_boot smooth kw w in
  (exists msg, r.1 = inl (TypeError msg)) /\
  length (new_cmds w r.2 (subplot_axis w)) = 2 + length err_style.
Proof.
  intros Hkw Hvalid r. subst r.
  pose (R := fun (r : result pyval) (t : list effect) =>
          (exists msg, r = inl (TypeError msg)) /\
          length (cmds_of t) = 2 + length err_style).
  unfold tsplot.
  match goal with
  | |- context [bind plt_subplot ?f w] =>
      destruct (emits_after_subplot f (subplot_axis w) R w) as (t & Hw & Ht)
  end.
  2:{ rewrite Hw, new_cmds_after_subplot. exact Ht. }
  unfold pop. rewrite lookup_rest_kwargs_named by is_named.
  cbn [from_option id]. subst R.
  set (kwargs := delete "ax" _).
  assert (Hc : kwargs !! "color" = Some c0).
  { unfold kwargs. rewrite lookup_delete_ne by discriminate.
    rewrite lookup_rest_kwargs by not_named. exact Hkw. }
  apply emits_bind, emits_plot_line. intros l. cbn [call_kwargs]. cbv beta iota.
  apply emits_bind, emits_line_remove; [reflexivity |]. cbv beta iota.
  apply emits_bind.
  apply (emits_forM_prefix _ (fun (done : list string) t =>
           length (cmds_of t) = length done)).
  - reflexivity.
  - intros done s rest t1 Hl Hlen.
    assert (Hs : s ∈ err_styles).
    { rewrite Forall_forall in Hvalid. apply Hvalid. rewrite Hl. set_solver. }
    apply style_func_valid in Hs as [f Hf].
    apply emits_bind, emits_dispatch. rewrite Hf.
    pose proof (style_func_range _ _ Hf) as Hr.
    destruct f; try no_such_style Hr.
    all: repeat emits_step no_colorbar.
    all: rewrite cmds_of_app, !length_app, Hlen; reflexivity.
  - intros t Hlen.
    apply emits_bind, emits_ax_call. cbn [call_kwargs]. rewrite Hc.
    split; [eexists; reflexivity |].
    rewrite !cmds_of_app, !length_app, Hlen. simpl. lia.
Qed.

Lemma tsplot_color_keyword_raises_witness :
  let r := tsplot x3 d3 ["ci_band"] ci_default sample_central 10 false
             (<["color" := VStr "r"]> ∅) no_figure in
  (exists msg, r.1 = inl (TypeError msg)) /\
  length (new_cmds no_figure r.2 (subplot_axis no_figure)) = 2 + length ["ci_band"].
Proof.
  apply (@tsplot_color_keyword_raises sample_extern x3 d3 ["ci_band"] ci_default
           sample_central 10 false (<["color" := VStr "r"]> ∅) no_figure (VStr "r")).
  - reflexivity.
  - repeat constructor.
Defined.

(** X8.  The check of [err_style] is made entry by entry: when the first
    undocumented name comes after [done], the call raises the
    [ValueError] with the first line, its removal and one call for each
    style of [done] already on the axis. *)
Theorem tsplot_invalid_style_after_drawing `{Extern} (x : vec) (data : list vec)
    (done : list string) (s : string) (rest : list string) (ci : Q * Q)
    (cf : list vec -> vec) (n_boot : nat) (smooth : bool) (kw : kwargs_t)
    (w : World) :
  Forall (fun s => s ∈ err_styles) done -> (s ∉ err_styles) ->
  let r := tsplot x data (done ++ s :: rest) ci cf n_boot smooth kw w in
  r.1 = inl (ValueError (s +:+ " is not a valid err_style")) /\
  length (new_cmds w r.2 (subplot_axis w)) = 2 + length done.
Proof.
  intros Hvalid Hbad r. subst r.
  pose (R := fun (r : result pyval) (t : list effect) =>
          r = inl (ValueError (s +:+ " is not a valid err_style")) /\
          length (cmds_of t) = 2 + length done).
  unfold tsplot.
  match goal with
  | |- context [bind plt_subplot ?f w] =>
      destruct (emits_after_subplot f (subplot_axis w) R w) as (t & Hw & Ht)
  end.
  2:{ rewrite Hw, new_cmds_after_subplot. exact Ht. }
  unfold pop. rewrite lookup_rest_kwargs_named by is_named.
  cbn [from_option id]. subst R.
  apply emits_bind, emits_plot_line. intros l. cbn [call_kwargs]. cbv beta iota.
  apply emits_bind, emits_line_remove; [reflexivity |]. cbv beta iota.
  apply emits_bind.
  apply (emits_forM_prefix _ (fun (done' : list string) t =>
           length (cmds_of t) = length done' /\ length done' <= length done)).
  - split; [reflexivity | simpl; lia].
  - intros done' s' rest' t1 Hl [Hlen Hle].
    assert (Hs' : (done ++ s :: rest) !! length done' = Some s').
    { rewrite Hl. apply list_lookup_middle. reflexivity. }
    apply emits_bind, emits_dispatch.
    destruct (decide (length done' = length done)) as [Heq | Hne].
    + rewrite Heq, list_lookup_middle in Hs' by reflexivity.
      injection Hs' as <-.
      apply style_func_none in Hbad. rewrite Hbad.
      emits_step no_colorbar. split; [reflexivity |].
      rewrite !cmds_of_app, !length_app, Hlen, Heq. simpl. lia.
    + rewrite lookup_app_l in Hs' by lia.
      assert (Hs : s' ∈ err_styles).
      { rewrite Forall_forall in Hvalid. apply Hvalid.
        eapply list_elem_of_lookup_2. exact Hs'. }
      apply style_func_valid in Hs as [f Hf]. rewrite Hf.
      pose proof (style_func_range _ _ Hf) as Hr.
      destruct f; try no_such_style Hr.
      all: repeat emits_step no_colorbar.
      all: rewrite cmds_of_app, !length_app, Hlen; simpl; lia.
  - intros t [_ Hle]. exfalso. rewrite length_app in Hle. simpl in Hle. lia.
Qed.

Lemma tsplot_invalid_style_after_drawing_witness :
  let r := tsplot x3 d3 (["ci_band"; "obs_points"] ++ "dots" :: ["ci_bars"])
             ci_default sample_central 10 false ∅ no_figure in
  r.1 = inl (ValueError ("dots" +:+ " is not a valid err_style")) /\
  length (new_cmds no_figure r.2 (subplot_axis no_figure)) =
  2 + length ["ci_band"; "obs_points"].
Proof.
  apply (@tsplot_invalid_style_after_drawing sample_extern x3 d3
           ["ci_band"; "obs_points"] "dots" ["ci_bars"] ci_default sample_central
           10 false ∅ no_figure).
  - repeat constructor.
  - unfold err_styles. not_named.
Defined.

(** ** regplot *)



(** ** boxplot *)

(** X10.  A [boxplot] that returns has called [ax.boxplot] once, with
    [patch_artist=True].  When [color] is left out, the keyword
    [positions] has been popped to place the line that gives the colour,
    and [ax.boxplot] does not get it; when [color] is given, [positions]
    is passed on. *)
Theorem boxplot_positions_keyword `{Extern} (vals : list vec) (join_rm : bool)
    (names : option (list string)) (color : option pyval) (kw : kwargs_t)
    (w : World) (v : pyval) :
  let r := boxplot vals join_rm names color kw w in
  r.1 = inr v ->
  exists kwargs,
    calls_of "boxplot" (new_cmds w r.2 (axis_id v)) =
      [mkCmd "boxplot" "boxplot" [VList (map VVec vals)] kwargs] /\
    kwargs !! "positions" =
      match color with None => None | Some _ => kw !! "positions" end /\
    kwargs !! "patch_artist" = Some (VBool true).
Proof.
  intros r Hv. subst r.
  destruct (run_returns_target (Boxplot vals join_rm names color) kw w v Hv)
    as [Ht [a ->]].
  simpl in Ht. symmetry in Ht. simpl axis_id.
  pose (R := boxplot_post vals
               (match color with None => None | Some _ => kw !! "positions" end)).
  revert Hv. unfold boxplot.
  match goal with
  | |- context [bind plt_subplot ?f w] =>
      destruct (emits_after_subplot f a R w) as (t & Hw & Hpost)
  end.
  2:{ intros Hv. rewrite Hw, new_cmds_trace by apply log_subplot_world.
      apply (Hpost _ Hv). }
  unfold pop. rewrite lookup_rest_kwargs by not_named. rewrite Ht. subst R.
  set (kwargs := delete "ax" _).
  destruct color as [c |].
  all: repeat emits_step (fun t : list effect => calls_of "boxplot" (cmds_of t) = []).
  all: lazymatch goal with |- emits _ _ _ => fail | _ => idtac end.
  all: try reflexivity.
  all: try (intros ? ?; discriminate).
  all: try (rewrite cmds_of_app, calls_of_app;
            match goal with H : calls_of _ _ = [] |- _ => rewrite H end; reflexivity).
  all: match goal with
       | Hr : match ?k !! "patch_artist" with _ => _ end = inr _ |- _ =>
           destruct (k !! "patch_artist") eqn:Hpa;
             [discriminate Hr | injection Hr as <-]
       end.
  all: intros v' _; eexists; split; [| split].
  all: rewrite ?cmds_of_app, ?calls_of_app.
  all: repeat match goal with H : calls_of _ _ = [] |- _ => rewrite H; clear H end.
  all: try reflexivity.
  all: try apply lookup_insert_eq.
  all: rewrite lookup_insert_ne by discriminate.
  all: try apply lookup_delete_eq.
  all: unfold kwargs; rewrite lookup_delete_ne by discriminate.
  all: apply lookup_rest_kwargs; not_named.
Qed.

Lemma boxplot_positions_keyword_witness :
  let kw : kwargs_t := <["positions" := VVec [2%Q; 4%Q]]> ∅ in
  let r := boxplot d3 false None None kw no_figure in
  exists kwargs,
    calls_of "boxplot" (new_cmds no_figure r.2 (axis_id (VAxis 0))) =
      [mkCmd "boxplot" "boxplot" [VList (map VVec d3)] kwargs] /\
    kwargs !! "positions" = None /\
    kwargs !! "patch_artist" = Some (VBool true).
Proof.
  apply (@boxplot_positions_keyword sample_extern d3 false None None
           (<["positions" := VVec [2%Q; 4%Q]]> ∅) no_figure (VAxis 0)).
  vm_compute. reflexivity.
Defined.

(** X11.  [boxplot] of an empty sequence, with [color] left out: reading
    [vals[0]] raises [IndexError], and no call has been recorded on any
    axis. *)
Theorem boxplot_empty_vals `{Extern} (join_rm : bool) (names : option (list string))
    (kw : kwargs_t) (w : World) (a : nat) :
  default (VAxis (subplot_axis w)) (kw !! "ax") = VAxis a ->
  kw !! "positions" = None ->
  let r := boxplot [] join_rm names None kw w in
  (exists msg, r.1 = inl (IndexError msg)) /\ forall b, log r.2 b = log w b.
Proof.
  intros Hax Hpos r. subst r. unfold boxplot. rewrite bind_subplot. unfold pop.
  rewrite lookup_rest_kwargs by not_named. rewrite Hax.
  rewrite lookup_delete_ne by discriminate.
  rewrite lookup_rest_kwargs by not_named. rewrite Hpos.
  split; [eexists; reflexivity | apply log_subplot_world].
Qed.

Lemma boxplot_empty_vals_witness :
  let r := boxplot [] false None None ∅ no_figure in
  (exists msg, r.1 = inl (IndexError msg)) /\ forall b, log r.2 b = log no_figure b.
Proof.
  apply (@boxplot_empty_vals sample_extern false None ∅ no_figure 0); reflexivity.
Defined.

(** ** kdeplot and _kde_support *)

(** X12.  No keyword makes [kdeplot] fail: for data that is not empty,
    [npts] not zero and [ax] an axis or left out, the call returns the
    axis whatever else is in the keywords; [color] in particular is
    popped before the line is drawn again with [color=color]. *)
Theorem kdeplot_accepts_keywords `{Extern} `{!KdeLaws} (a : ndarray) (npts : nat)
    (hist : bool) (nbins : nat) (rug shade : bool) (kw : kwargs_t) (w : World)
    (ax : nat) :
  flat a <> [] -> npts <> 0 ->
  default (VAxis (subplot_axis w)) (kw !! "ax") = VAxis ax ->
  (kdeplot a npts hist nbins rug shade kw w).1 = inr (VAxis ax).
Proof.
  intros Ha Hn Hax. unfold kdeplot.
  match goal with
  | |- context [bind plt_subplot ?f w] =>
      destruct (emits_after_subplot f ax (returns_post ax) w) as (t & _ & Hr)
  end.
  2:{ exact Hr. }
  unfold pop. rewrite lookup_rest_kwargs by not_named. rewrite Hax.
  set (kwargs := delete "ax" _).
  destruct (kde_support_ok (flat a) npts Ha Hn) as (x & -> & Hx).
  destruct (amax_ok _ (kde_nonempty (flat a) x Hx)) as [ymax Hymax].
  repeat emits_step (fun _ : list effect => True); try returns_tac.
  all: try congruence.
  all: rewrite lookup_delete_eq in *; discriminate.
Qed.

Lemma kdeplot_accepts_keywords_witness :
  (kdeplot (Arr [3] x3) 10 true 20 true true
     (<["color" := VStr "r"]> (<["linewidth" := VNum 2]> ∅)) no_figure).1 =
  inr (VAxis 0).
Proof.
  apply (@kdeplot_accepts_keywords sample_extern sample_kde_laws (Arr [3] x3) 10
           true 20 true true
           (<["color" := VStr "r"]> (<["linewidth" := VNum 2]> ∅)) no_figure 0);
    [discriminate | discriminate | reflexivity].
Defined.



Section Support.







End Support.



(** ** violin *)

(** X15.  What [violin] takes as its samples when [vals] is a
    two-dimensional array: the whole array as one sample when it has one
    row or one column, and otherwise its columns, each with one value
    from every row. *)
Theorem violin_bins_of_matrix (nr nc : nat) (values : vec) :
  length values = nr * nc -> 0 < nc ->
  exists bins,
    violin_bins (NdArray (Arr [nr; nc] values)) = inr bins /\
    (nr = 1 \/ nc = 1 -> bins = [values]) /\
    (nr <> 1 -> nc <> 1 ->
     length bins = nc /\
     forall i col, bins !! i = Some col ->
       length col = nr /\
       forall r, r < nr -> col !! r = values !! (r * nc + i)).
Proof.
  intros Hlen Hnc. unfold violin_bins, violin_reshape. simpl.
  destruct (Nat.eqb_spec nr 1) as [Hr | Hr].
  { eexists. split; [reflexivity |]. split; [reflexivity | contradiction]. }
  destruct (Nat.eqb_spec nc 1) as [Hc | Hc].
  { eexists. split; [reflexivity |]. split; [reflexivity | contradiction]. }
  destruct nc as [| nc']; [lia |].
  rewrite <- cons_seq. simpl map. cbn [violin_asarrays].
  eexists. split; [reflexivity |]. split; [intros [? | ?]; contradiction |].
  intros _ _. split.
  { simpl. rewrite length_map, length_seq. reflexivity. }
  intros i col Hcol.
  assert (Hi : i < S nc' /\ col = column nr (S nc') values i).
  { change (column nr (S nc') values 0 :: map (column nr (S nc') values) (seq 1 nc'))
      with (map (column nr (S nc') values) (seq 0 (S nc'))) in Hcol.
    rewrite list_lookup_fmap in Hcol.
    destruct (seq 0 (S nc') !! i) as [i' |] eqn:Hs; [| discriminate Hcol].
    apply lookup_seq in Hs as [-> Hs]. injection Hcol as <-.
    split; [lia | reflexivity]. }
  destruct Hi as [Hi ->]. unfold column. split.
  { rewrite length_map, length_seq. reflexivity. }
  intros r Hr'. rewrite list_lookup_fmap, lookup_seq_lt by exact Hr'. simpl.
  assert (Hlt : r * S nc' + i < length values) by nia.
  destruct (lookup_lt_is_Some_2 values _ Hlt) as [q Hq]. rewrite Hq.
  f_equal. rewrite nth_lookup, Hq. reflexivity.
Qed.

Lemma violin_bins_of_matrix_witness :
  exists bins,
    violin_bins (NdArray (Arr [3; 2] [1; 2; 3; 4; 5; 6]%Q)) = inr bins /\
    (3 = 1 \/ 2 = 1 -> bins = [[1; 2; 3; 4; 5; 6]%Q]) /\
    (3 <> 1 -> 2 <> 1 ->
     length bins = 2 /\
     forall i col, bins !! i = Some col ->
       length col = 3 /\
       forall r, r < 3 -> col !! r = [1; 2; 3; 4; 5; 6]%Q !! (r * 2 + i)).
Proof.
  apply (violin_bins_of_matrix 3 2 [1; 2; 3; 4; 5; 6]%Q); [reflexivity | lia].
Defined.

Ltac count_tac :=
  lazymatch goal with |- emits _ _ _ => fail | _ => idtac end;
  unfold violins_post, texts_post in *; intros; try discriminate;
  rewrite ?cmds_of_app, ?count_method_app, ?length_app;
  repeat match goal with
         | H : count_method _ (cmds_of _) = _ |- _ => rewrite H; clear H
         end;
  cbn [cmds_of omap list_omap app];
  unfold count_method; simpl; try lia.

(** X16.  A [violin] that returns has drawn one violin for every sample:
    as many [fill_betweenx] calls as there are samples. *)
Theorem violin_one_violin_per_bin `{Extern} (vals : vals_t) (bins : list vec)
    (inner : string) (position : position_t) (widths : Q) (join_rm : bool)
    (names : option (list string)) (kw : kwargs_t) (w : World) (v : pyval) :
  violin_bins vals = inr bins ->
  let r := violin vals inner position widths join_rm names kw w in
  r.1 = inr v ->
  count_method "fill_betweenx" (new_cmds w r.2 (axis_id v)) = length bins.
Proof.
  intros Hbins r Hv. subst r.
  destruct (run_returns_target (Violin vals inner position widths join_rm names)
              kw w v Hv) as [Ht [a ->]].
  simpl in Ht. symmetry in Ht. simpl axis_id.
  revert Hv. unfold violin.
  match goal with
  | |- context [bind plt_subplot ?f w] =>
      destruct (emits_after_subplot f a (violins_post (length bins)) w)
        as (t & Hw & Hpost)
  end.
  2:{ intros Hv. rewrite Hw, new_cmds_trace by apply log_subplot_world.
      apply (Hpost _ Hv). }
  unfold pop. rewrite lookup_rest_kwargs by not_named. rewrite Ht, Hbins.
  apply emits_bind, emits_lift. cbv beta iota.
  emits_to_loop (fun t : list effect => count_method "fill_betweenx" (cmds_of t) = 0).
  all: try count_tac.
  apply emits_bind.
  apply (emits_forM_prefix _ (fun (done : list (nat * vec)) t =>
           count_method "fill_betweenx" (cmds_of t) = length done)).
  - reflexivity.
  - intros done [i b] rest t1 Hl Hdone.
    repeat emits_step
      (fun t : list effect => count_method "fill_betweenx" (cmds_of t) = 0).
    all: try reflexivity.
    all: try count_tac.
  - intros t Hall. rewrite length_zip_seq in Hall.
    repeat emits_step
      (fun t : list effect => count_method "fill_betweenx" (cmds_of t) = 0).
    all: try reflexivity.
    all: try count_tac.
Qed.

Lemma violin_one_violin_per_bin_witness :
  let r := violin (PySeqs d3) "stick" PosNone (3 # 10)%Q true None ∅ no_figure in
  count_method "fill_betweenx" (new_cmds no_figure r.2 (axis_id (VAxis 0))) =
  length d3.
Proof.
  apply (@violin_one_violin_per_bin sample_extern (PySeqs d3) d3 "stick" PosNone
           (3 # 10)%Q true None ∅ no_figure (VAxis 0)).
  - reflexivity.
  - vm_compute. reflexivity.
Defined.

(** X17.  A [position] sequence shorter than the number of samples is
    not checked beforehand: [violin] draws a violin at every position it
    is given and raises [IndexError] at the first sample left without
    one. *)
Theorem violin_positions_too_short `{Extern} `{!KdeLaws} (vals : vals_t)
    (bins : list vec) (inner : string) (l : vec) (widths : Q) (join_rm : bool)
    (names : option (list string)) (kw : kwargs_t) (w : World) (a : nat) :
  violin_bins vals = inr bins ->
  Forall (fun b => b <> []) bins ->
  length l < length bins ->
  default (VAxis (subplot_axis w)) (kw !! "ax") = VAxis a ->
  let r := violin vals inner (PosSeq l) widths join_rm names kw w in
  (exists msg, r.1 = inl (IndexError msg)) /\
  count_method "fill_betweenx" (new_cmds w r.2 a) = length l.
Proof.
  intros Hbins Hne Hlen Hax r. subst r.
  pose (R := fun (r : result pyval) (t : list effect) =>
          (exists msg, r = inl (IndexError msg)) /\
          count_method "fill_betweenx" (cmds_of t) = length l).
  unfold violin.
  match goal with
  | |- context [bind plt_subplot ?f w] =>
      destruct (emits_after_subplot f a R w) as (t & Hw & Hpost)
  end.
  2:{ rewrite Hw, new_cmds_trace by apply log_subplot_world. exact Hpost. }
  unfold pop. rewrite lookup_rest_kwargs by not_named. rewrite Hax, Hbins.
  subst R.
  apply emits_bind, emits_lift. cbv beta iota.
  destruct (list_getitem_ok bins 0 ltac:(lia)) as [b0 Hb0]. rewrite Hb0.
  emits_to_loop (fun t : list effect => count_method "fill_betweenx" (cmds_of t) = 0).
  apply emits_bind.
  apply (emits_forM_prefix _ (fun (done : list (nat * vec)) t =>
           count_method "fill_betweenx" (cmds_of t) = length done /\
           length done <= length l)).
  - split; [reflexivity | simpl; lia].
  - intros done [i b] rest t1 Hl [Hdone Hle].
    apply zip_seq_middle in Hl as [-> Hb].
    assert (Hbne : b <> []).
    { rewrite Forall_forall in Hne. apply Hne.
      eapply list_elem_of_lookup_2. exact Hb. }
    unfold violin_one.
    destruct (decide (length done = length l)) as [Heq | Hneq].
    + unfold list_getitem at 1. rewrite lookup_ge_None_2 by lia.
      apply emits_bind, emits_lift. cbv beta iota.
      split; [eexists; reflexivity |]. count_tac.
    + destruct (list_getitem_ok l (length done) ltac:(lia)) as [x Hx].
      destruct (kde_support_ok b 1000 Hbne ltac:(lia)) as (y & Hy & Hyne).
      destruct (scale_density_ok (stats_gaussian_kde b y) widths
                  (kde_nonempty b y Hyne)) as (scl & scaled & Hsc).
      rewrite Hx. apply emits_bind, emits_lift. cbv beta iota.
      rewrite Hy. apply emits_bind, emits_lift. cbv beta iota.
      rewrite Hsc.
      repeat emits_step
        (fun t : list effect => count_method "fill_betweenx" (cmds_of t) = 0).
      all: try reflexivity.
      all: try (split; [count_tac | rewrite length_app; simpl; lia]).
      all: count_tac.
  - intros t [_ Hall]. rewrite length_zip_seq in Hall. lia.
Qed.

Lemma violin_positions_too_short_witness :
  let r := violin (PySeqs d3) "box" (PosSeq [1%Q]) (3 # 10)%Q false None ∅
             no_figure in
  (exists msg, r.1 = inl (IndexError msg)) /\
  count_method "fill_betweenx" (new_cmds no_figure r.2 0) = length [1%Q].
Proof.
  apply (@violin_positions_too_short sample_extern sample_kde_laws (PySeqs d3) d3
           "box" [1%Q] (3 # 10)%Q false None ∅ no_figure 0).
  - reflexivity.
  - repeat constructor; discriminate.
  - simpl. lia.
  - reflexivity.
Defined.

(** X18.  A [violin] that returns has set the x ticks to the positions
    of the violins (1, 2, ... when [position] is left out, [p], [p + 1],
    ... for a number [p], the sequence itself otherwise) and, as its last
    call, the x limits to half a unit before the first and half a unit
    after the last position. *)
Theorem violin_ticks_and_limits `{Extern} (vals : vals_t) (bins : list vec)
    (inner : string) (position : position_t) (widths : Q) (join_rm : bool)
    (names : option (list string)) (kw : kwargs_t) (w : World) (v : pyval) :
  violin_bins vals = inr bins ->
  let r := violin vals inner position widths join_rm names kw w in
  let pos := violin_positions position (length bins) in
  r.1 = inr v ->
  exists first lst,
    pos !! 0 = Some first /\ last pos = Some lst /\
    mkCmd "violin" "set_xticks" [VVec pos] ∅ ∈ new_cmds w r.2 (axis_id v) /\
    last (new_cmds w r.2 (axis_id v)) =
      Some (mkCmd "violin" "set_xlim"
              [VNum (first - (1 # 2))%Q; VNum (lst + (1 # 2))%Q] ∅).
Proof.
  intros Hbins r pos Hv. subst r.
  destruct (run_returns_target (Violin vals inner position widths join_rm names)
              kw w v Hv) as [Ht [a ->]].
  simpl in Ht. symmetry in Ht. simpl axis_id.
  revert Hv. unfold violin.
  match goal with
  | |- context [bind plt_subplot ?f w] =>
      destruct (emits_after_subplot f a (ticks_post pos) w) as (t & Hw & Hpost)
  end.
  2:{ intros Hv. rewrite Hw, new_cmds_trace by apply log_subplot_world.
      apply (Hpost _ Hv). }
  unfold pop. rewrite lookup_rest_kwargs by not_named. rewrite Ht, Hbins.
  apply emits_bind, emits_lift. cbv beta iota.
  fold (violin_positions position (length bins)). fold pos.
  repeat emits_step (fun _ : list effect => True).
  all: lazymatch goal with |- emits _ _ _ => fail | _ => idtac end.
  all: try exact I.
  all: try (intros ? ?; discriminate).
  all: intros v' _;
    match goal with
    | Hf : list_getitem ?p 0 = inr ?q,
      Hl : list_getitem ?p (length ?p - 1) = inr ?q0 |- _ =>
        exists q, q0; apply list_getitem_inr in Hf, Hl
    end.
  all: split; [assumption |].
  all: split; [rewrite last_lookup, <- Nat.sub_1_r; assumption |].
  all: split.
  all: try (rewrite !cmds_of_app; cbn [cmds_of omap list_omap]; set_solver).
  all: rewrite ?app_nil_r, ?app_nil_l, !app_assoc, cmds_of_app.
  all: apply last_snoc.
Qed.

Lemma violin_ticks_and_limits_witness :
  let r := violin (PySeqs d3) "box" (PosScalar 5) (3 # 10)%Q false None ∅
             no_figure in
  let pos := violin_positions (PosScalar 5) (length d3) in
  exists first lst,
    pos !! 0 = Some first /\ last pos = Some lst /\
    mkCmd "violin" "set_xticks" [VVec pos] ∅
      ∈ new_cmds no_figure r.2 (axis_id (VAxis 0)) /\
    last (new_cmds no_figure r.2 (axis_id (VAxis 0))) =
      Some (mkCmd "violin" "set_xlim"
              [VNum (first - (1 # 2))%Q; VNum (lst + (1 # 2))%Q] ∅).
Proof.
  apply (@violin_ticks_and_limits sample_extern (PySeqs d3) d3 "box" (PosScalar 5)
           (3 # 10)%Q false None ∅ no_figure (VAxis 0)).
  - reflexivity.
  - vm_compute. reflexivity.
Defined.

Lemma len_transpose_same (bins : list vec) m :
  bins <> [] -> Forall (fun b => length b = m) bins -> len_transpose bins = m.
Proof.
  intros Hne Hall. destruct bins as [| b0 bins]; [contradiction |].
  apply Forall_cons in Hall as [H0 Hall]. simpl.
  assert (Hf : forallb (fun u => (length u =? length b0)%nat) bins = true).
  { apply forallb_forall. intros u Hu. apply Nat.eqb_eq.
    rewrite Forall_forall in Hall. rewrite H0. apply Hall, list_elem_of_In, Hu. }
  rewrite Hf. exact H0.
Qed.

(** X19.  With [join_rm=True] and a list of samples of one length [m],
    the line plot [violin] adds has the x values 1, ..., [m], the
    positions within a sample and not the positions of the violins, and
    draws one line for every sample. *)
Theorem violin_join_rm_positions `{Extern} (bins : list vec)
    (m : nat) (inner : string) (position : position_t) (widths : Q)
    (names : option (list string)) (kw : kwargs_t) (w : World) (v : pyval) :
  bins <> [] ->
  Forall (fun b => length b = m) bins ->
  let r := violin (PySeqs bins) inner position widths true names kw w in
  r.1 = inr v ->
  exists kwargs,
    mkCmd "violin" "plot" [VVec (map Qn (seq 1 m)); VMat (Cols bins)] kwargs
      ∈ new_cmds w r.2 (axis_id v) /\
    n_lines (mkCmd "violin" "plot" [VVec (map Qn (seq 1 m)); VMat (Cols bins)] kwargs)
      = length bins.
Proof.
  intros Hne Hsame r Hv. subst r.
  assert (Hbins : violin_bins (PySeqs bins) = inr bins).
  { destruct bins; [contradiction | reflexivity]. }
  destruct (run_returns_target (Violin (PySeqs bins) inner position widths true names)
              kw w v Hv) as [Ht [a ->]].
  simpl in Ht. symmetry in Ht. simpl axis_id.
  assert (Hgoal : exists kwargs,
            mkCmd "violin" "plot" [VVec (map Qn (seq 1 m)); VMat (Cols bins)] kwargs
              ∈ new_cmds w (violin (PySeqs bins) inner position widths true names
                              kw w).2 a).
  { revert Hv. unfold violin.
    match goal with
    | |- context [bind plt_subplot ?f w] =>
        destruct (emits_after_subplot f a (join_post bins m) w) as (t & Hw & Hpost)
    end.
    2:{ intros Hv. rewrite Hw, new_cmds_trace by apply log_subplot_world.
        apply (Hpost _ Hv). }
    unfold pop. rewrite lookup_rest_kwargs by not_named. rewrite Ht, Hbins.
    apply emits_bind, emits_lift. cbv beta iota.
    rewrite (len_transpose_same bins m Hne Hsame).
    unfold when.
    repeat emits_step (fun _ : list effect => True).
    all: lazymatch goal with |- emits _ _ _ => fail | _ => idtac end.
    all: try exact I.
    all: try (intros ? ?; discriminate).
    all: intros v' _; eexists.
    all: rewrite !cmds_of_app; cbn [cmds_of omap list_omap T].
    all: repeat first [ apply list_elem_of_here | apply list_elem_of_further
                      | apply elem_of_app; right ]. }
  destruct Hgoal as [kwargs Hin]. exists kwargs. split; [exact Hin | reflexivity].
Qed.

Lemma violin_join_rm_positions_witness :
  let r := violin (PySeqs d3) "box" PosNone (3 # 10)%Q true None ∅ no_figure in
  exists kwargs,
    mkCmd "violin" "plot" [VVec (map Qn (seq 1 3)); VMat (Cols d3)] kwargs
      ∈ new_cmds no_figure r.2 (axis_id (VAxis 0)) /\
    n_lines (mkCmd "violin" "plot" [VVec (map Qn (seq 1 3)); VMat (Cols d3)] kwargs)
      = length d3.
Proof.
  apply (@violin_join_rm_positions sample_extern d3 3 "box" PosNone
           (3 # 10)%Q None ∅ no_figure (VAxis 0)).
  - discriminate.
  - repeat constructor.
  - vm_compute. reflexivity.
Defined.

(** ** symmatplot and corrplot *)

(** X20.  A [cmap_range] that is not [None] and has not two elements
    (the string [full], which only [corrplot] knows, among them) makes
    [symmatplot] raise its [ValueError], with no call recorded on any
    axis and no colorbar added. *)
Theorem symmatplot_bad_cmap_range `{Extern} (mat : list vec)
    (p_mat : option (list vec)) (names : option (list string)) (cmap : pyval)
    (cmap_range : cmap_range_t) (cbar : bool) (kw : kwargs_t) (w : World) :
  wide (length mat) mat -> bad_cmap_range cmap_range ->
  let r := symmatplot mat p_mat names cmap cmap_range cbar kw w in
  r.1 = inl not_understood /\ colorbars r.2 = colorbars w /\
  forall b, log r.2 b = log w b.
Proof.
  intros Hmat Hbad r. subst r. unfold symmatplot. rewrite bind_subplot.
  unfold pop. cbv beta iota.
  destruct (mask_triu_ok mat Hmat) as [plotmat ->].
  rewrite bind_lift_inr.
  assert (Hgo : forall k : pyval * pyval -> M pyval,
            let r := bind (raise not_understood) k (subplot_world w) in
            r.1 = inl not_understood /\ colorbars r.2 = colorbars w /\
            forall b, log r.2 b = log w b).
  { intros k. simpl. split; [reflexivity |].
    split; [apply colorbars_subplot_world | apply log_subplot_world]. }
  destruct cmap_range as [| s | l]; simpl in Hbad.
  - contradiction.
  - destruct s as [| c1 [| c2 [| c3 s]]]; try apply Hgo. simpl in Hbad. lia.
  - destruct l as [| x [| y [| z l]]]; try apply Hgo. simpl in Hbad. lia.
Qed.

Lemma symmatplot_bad_cmap_range_witness :
  let r := symmatplot m2 None None (VStr "Spectral_r") (CRStr "full") true ∅
             no_figure in
  r.1 = inl not_understood /\ colorbars r.2 = colorbars no_figure /\
  forall b, log r.2 b = log no_figure b.
Proof.
  apply (@symmatplot_bad_cmap_range sample_extern m2 None None (VStr "Spectral_r")
           (CRStr "full") true ∅ no_figure).
  - split; [simpl; lia | repeat constructor].
  - simpl. lia.
Defined.



Lemma length_triu_row k n :
  2 * length (flat_map (fun i => map (fun j : nat => (i, j)) (seq (S i) (k + n - S i)))
                (seq k n)) = n * (n - 1).
Proof.
  revert k. induction n as [| n IH]; intros k; [reflexivity |].
  simpl flat_map. rewrite length_app, length_map, length_seq.
  replace (k + S n) with (S k + n) by lia.
  specialize (IH (S k)). nia.
Qed.

Lemma length_triu_indices1 n : 2 * length (triu_indices1 n) = n * (n - 1).
Proof. apply (length_triu_row 0 n). Qed.

(** X22.  A [symmatplot] that returns has written one text for every
    pair of variables above the diagonal and one for every name: with
    [n] variables, [n (n - 1) / 2] values and as many names as it was
    given ([n] when [names] is left out).  The number of names is not
    compared with [n]. *)
Theorem symmatplot_text_labels `{Extern} (mat : list vec)
    (p_mat : option (list vec)) (names : option (list string)) (cmap : pyval)
    (cmap_range : cmap_range_t) (cbar : bool) (kw : kwargs_t) (w : World)
    (v : pyval) :
  let r := symmatplot mat p_mat names cmap cmap_range cbar kw w in
  let nvars := length mat in
  r.1 = inr v ->
  2 * count_method "text" (new_cmds w r.2 (axis_id v)) =
  nvars * (nvars - 1) +
  2 * match names with Some l => length l | None => nvars end.
Proof.
  intros r nvars Hv. subst r.
  destruct (run_returns_target (Symmatplot mat p_mat names cmap cmap_range cbar)
              kw w v Hv) as [Ht [a ->]].
  simpl in Ht. symmetry in Ht. simpl axis_id.
  set (nn := match names with Some l => length l | None => nvars end).
  revert Hv. unfold symmatplot.
  match goal with
  | |- context [bind plt_subplot ?f w] =>
      destruct (emits_after_subplot f a
                  (texts_post (length (triu_indices1 nvars) + nn)) w)
        as (t & Hw & Hpost)
  end.
  2:{ intros Hv. rewrite Hw, new_cmds_trace by apply log_subplot_world.
      rewrite (Hpost _ Hv). pose proof (length_triu_indices1 nvars). lia. }
  unfold pop. rewrite lookup_rest_kwargs by not_named. rewrite Ht.
  emits_to_loop (fun t : list effect => count_method "text" (cmds_of t) = 0).
  all: try count_tac.
  all: apply emits_bind.
  all: apply (emits_forM_prefix _ (fun (done : list (nat * nat)) t =>
           count_method "text" (cmds_of t) = length done)); [reflexivity | | ].
  all: try (intros done [i j] rest t1 Hl Hdone;
            repeat emits_step
              (fun t : list effect => count_method "text" (cmds_of t) = 0);
            count_tac).
  all: intros t1 Hall1.
  all: apply emits_bind.
  all: apply (emits_forM_prefix _ (fun (done : list (nat * string)) t =>
           count_method "text" (cmds_of t) = length done)); [reflexivity | | ].
  all: try (intros done [i name] rest t2 Hl Hdone;
            repeat emits_step
              (fun t : list effect => count_method "text" (cmds_of t) = 0);
            count_tac).
  all: intros t2 Hall2; rewrite length_zip_seq in Hall2.
  all: repeat emits_step (fun t : list effect => count_method "text" (cmds_of t) = 0).
  all: count_tac.
  all: subst nn nvars; destruct names; rewrite ?length_map, ?length_seq; lia.
Qed.

Lemma symmatplot_text_labels_witness :
  let r := symmatplot m2 None (Some ["a"; "b"; "c"]) (VStr "Spectral_r") CRNone
             false ∅ no_figure in
  2 * count_method "text" (new_cmds no_figure r.2 (axis_id (VAxis 0))) =
  length m2 * (length m2 - 1) + 2 * length ["a"; "b"; "c"].
Proof.
  apply (@symmatplot_text_labels sample_extern m2 None (Some ["a"; "b"; "c"])
           (VStr "Spectral_r") CRNone false ∅ no_figure (VAxis 0)).
  vm_compute. reflexivity.
Defined.





(** X25.  With [cmap_range] left out and fewer than two variables there
    is no correlation off the diagonal to take the maximum of:
    [corrplot] raises before it has touched pyplot, and the world is as
    it was. *)
Theorem corrplot_single_variable `{Extern} (data : list vec)
    (names : option (list string)) (sig_stars : bool) (sig_tail : string)
    (sig_corr : bool) (cmap : pyval) (cbar : bool) (kw : kwargs_t) (w : World) :
  length data < 2 ->
  exists e : exn,
    corrplot data names sig_stars sig_tail sig_corr cmap CRNone cbar kw w =
    (inl e, w).
Proof.
  intros Hn. unfold corrplot.
  destruct data as [| d0 [| d1 data]];
    [eexists; reflexivity | eexists; reflexivity |].
  simpl in Hn. lia.
Qed.

Lemma corrplot_single_variable_witness :
  exists e : exn,
    corrplot [x3] None true "both" true (VStr "Spectral_r") CRNone true ∅ no_figure =
    (inl e, no_figure).
Proof.
  apply (@corrplot_single_variable sample_extern [x3] None true "both" true
           (VStr "Spectral_r") true ∅ no_figure).
  simpl. lia.
Defined.
